(** * The contract namespace of [vyper/context/namespace.py]

    A shallow embedding of the [Namespace] class (a [dict] subclass carrying
    the list [_scopes] of per-scope key sets) and of the properties its
    specification states about insertion, lookup, scope entry and exit, and
    reset. *)

From Stdlib Require Import Ascii String NArith.
From stdpp Require Import base gmap strings list fin_maps.

Local Open Scope string_scope.
Local Open Scope list_scope.

(* [set_solver] clears hypotheses it has already consumed. *)
Local Set Warnings "-clear-no-such-hyp".

(** ** Identifiers

    Python [str] values are modelled as [string].  The only character tests
    the module performs are the ASCII classes of the regular expression of
    [validate_assignment], and [str.lower]/[str.upper] are only reached for
    names that the regular expression accepted, where they are the ASCII
    case mappings. *)

Module Ident.

Definition in_range (lo hi c : ascii) : bool :=
  ((N_of_ascii lo <=? N_of_ascii c) && (N_of_ascii c <=? N_of_ascii hi))%N.

(** The class [[_a-zA-Z]]. *)
Definition head_class (c : ascii) : bool :=
  Ascii.eqb c "_" || in_range "a" "z" c || in_range "A" "Z" c.

(** The class [[a-zA-Z0-9_]]. *)
Definition tail_class (c : ascii) : bool :=
  in_range "a" "z" c || in_range "A" "Z" c || in_range "0" "9" c
  || Ascii.eqb c "_".

Definition newline : ascii := "010".

(** [[a-zA-Z0-9_]*$]: without [re.MULTILINE], [$] matches at the end of the
    string and also just before a newline that is its last character. *)
Fixpoint match_tail (s : string) : bool :=
  match s with
  | EmptyString => true
  | String c EmptyString => tail_class c || Ascii.eqb c newline
  | String c rest => tail_class c && match_tail rest
  end.

(** [re.match("^[_a-zA-Z][a-zA-Z0-9_]*$", attr)], as a truth value. *)
Definition re_match (attr : string) : bool :=
  match attr with
  | EmptyString => false
  | String c rest => head_class c && match_tail rest
  end.

Definition lower_char (c : ascii) : ascii :=
  if in_range "A" "Z" c then ascii_of_N (N_of_ascii c + 32) else c.

Definition upper_char (c : ascii) : ascii :=
  if in_range "a" "z" c then ascii_of_N (N_of_ascii c - 32) else c.

Fixpoint map_chars (f : ascii → ascii) (s : string) : string :=
  match s with
  | EmptyString => EmptyString
  | String c rest => String (f c) (map_chars f rest)
  end.

(** [attr.lower()] and [attr.upper()]. *)
Definition lower : string → string := map_chars lower_char.
Definition upper : string → string := map_chars upper_char.

(** The identifier grammar in the words of the specification (I5): the
    first character is [_] or a letter, every later one is [_], a letter or
    a digit. *)
Definition is_letter (c : ascii) : bool :=
  in_range "a" "z" c || in_range "A" "Z" c.

Definition is_digit (c : ascii) : bool := in_range "0" "9" c.

Fixpoint all_chars (p : ascii → bool) (s : string) : bool :=
  match s with
  | EmptyString => true
  | String c rest => p c && all_chars p rest
  end.

Definition grammar (name : string) : bool :=
  match name with
  | EmptyString => false
  | String c rest =>
      (Ascii.eqb c "_" || is_letter c)
      && all_chars (λ c, Ascii.eqb c "_" || is_letter c || is_digit c) rest
  end.

End Ident.

(** Cannot be used for variable or member naming.  The set literal is kept
    as the list of its elements; the module only tests membership in it. *)
Definition RESERVED_KEYWORDS : list string :=
  [ (* decorators *)
    "public"; "external"; "nonpayable"; "constant"; "internal"; "payable";
    "nonreentrant";
    (* control flow *)
    "if"; "for"; "while"; "until"; "pass"; "def";
    (* EVM operations *)
    "send"; "selfdestruct"; "assert"; "raise"; "throw";
    (* special functions (no name mangling) *)
    "init"; "_init_"; "___init___"; "____init____";
    "default"; "_default_"; "___default___"; "____default____";
    (* environment variables *)
    "chainid"; "blockhash"; "timestamp"; "timedelta";
    (* boolean literals *)
    "true"; "false";
    (* more control flow and special operations *)
    "this"; "continue"; "range";
    (* None sentinal value *)
    "none";
    (* more special operations *)
    "indexed";
    (* denominations *)
    "ether"; "wei"; "finney"; "szabo"; "shannon"; "lovelace"; "ada";
    "babbage"; "gwei"; "kwei"; "mwei"; "twei"; "pwei";
    (* address members *)
    "balance"; "codesize"; "is_contract";
    (* units *)
    "units";
    (* sentinal constant values *)
    "zero_address"; "empty_bytes32"; "max_int128"; "min_int128";
    "max_decimal"; "min_decimal"; "max_uint256"; "zero_wei" ].

(** ** Exceptions

    The four classes imported from [vyper.exceptions], each carrying its
    message, and the [KeyError] that [dict.__delitem__] raises. *)

Inductive exn : Type :=
| CompilerPanic (msg : string)
| NamespaceCollision (msg : string)
| StructureException (msg : string)
| UndeclaredDefinition (msg : string)
| KeyError (key : string).

(** The exceptions that report a problem of the analysed contract, as against
    a fault of the compiler itself. *)
Definition user_facing (e : exn) : bool :=
  match e with
  | NamespaceCollision _ | StructureException _ | UndeclaredDefinition _ => true
  | CompilerPanic _ | KeyError _ => false
  end.

(** [l.pop()] on a non-empty list: the list without its last element, and
    that element. *)
Fixpoint list_pop {A : Type} (l : list A) : option (list A * A) :=
  match l with
  | [] => None
  | x :: l' =>
      match list_pop l' with
      | None => Some ([], x)
      | Some (rest, y) => Some (x :: rest, y)
      end
  end.

(** A small environment for the worked examples.  Definitions are described
    by strings; the three bootstrap mappings and the opcode table hold a few
    names each, and the mutable environment holds [self], the one name the
    comment in [enter_scope] mentions. *)
Module Sample.

Definition get_types : list (string * string) :=
  [("int128", "type int128"); ("address", "type address");
   ("bool", "type bool")].

Definition get_constant_vars : list (string * string) :=
  [("ZERO_ADDRESS", "constant ZERO_ADDRESS");
   ("MAX_UINT256", "constant MAX_UINT256")].

Definition get_builtin_functions : list (string * string) :=
  [("floor", "function floor"); ("send", "function send");
   ("selfdestruct", "function selfdestruct")].

Definition get_mutable_vars : list (string * string) :=
  [("self", "contract self")].

Definition OPCODES : gset string :=
  list_to_set ["STOP"; "ADD"; "MUL"; "BALANCE"; "SELFDESTRUCT"].

Definition obj_str (obj : string) : string := obj.

End Sample.

Section Namespace.

(** The values bound to names; the module never inspects them, it only
    formats one into a message. *)
Variable Obj : Type.
Variable obj_str : Obj → string.

(** The keys of [vyper.opcodes.OPCODES]. *)
Variable OPCODES : gset string.

(** The [items()] of the mappings returned by [get_types],
    [environment.get_constant_vars], [get_builtin_functions] and
    [environment.get_mutable_vars], in iteration order. *)
Variable get_types : list (string * Obj).
Variable get_constant_vars : list (string * Obj).
Variable get_builtin_functions : list (string * Obj).
Variable get_mutable_vars : list (string * Obj).

(** The object: the inherited dictionary and the attribute [_scopes], whose
    last element is the innermost scope. *)
Record Namespace : Type := mkNamespace {
  dict : gmap string Obj;
  _scopes : list (gset string)
}.

(** A call either returns a value or raises; either way it leaves the
    object in some state. *)
Inductive outcome (A : Type) : Type :=
| Return (v : A) (self : Namespace)
| Raise (e : exn) (self : Namespace).
Arguments Return {A} v self.
Arguments Raise {A} e self.

Definition state_of {A : Type} (o : outcome A) : Namespace :=
  match o with Return _ self | Raise _ self => self end.

Definition M (A : Type) : Type := Namespace → outcome A.

Definition ret {A : Type} (v : A) : M A := λ self, Return v self.
Definition raise {A : Type} (e : exn) : M A := λ self, Raise e self.
Definition bind {A B : Type} (m : M A) (k : A → M B) : M B :=
  λ self,
    match m self with
    | Return v self' => k v self'
    | Raise e self' => Raise e self'
    end.
Definition get : M Namespace := λ self, Return self self.
Definition put (self' : Namespace) : M unit := λ _, Return tt self'.

Notation "x <- m ;; k" := (bind m (λ x, k))
  (at level 100, m at next level, right associativity).
Notation "m ;; k" := (bind m (λ _, k))
  (at level 100, right associativity).

(** [for x in l: body(x)] *)
Fixpoint for_each {A : Type} (body : A → M unit) (l : list A) : M unit :=
  match l with
  | [] => ret tt
  | x :: l' => body x ;; for_each body l'
  end.

(** [[x for i in self._scopes for x in i]] *)
Definition scoped_names (self : Namespace) : list string :=
  mjoin (elements <$> _scopes self).

Definition is_reserved (attr : string) : bool :=
  bool_decide (Ident.lower attr ∈ RESERVED_KEYWORDS)
  || bool_decide (Ident.upper attr ∈ OPCODES).

(** The first branch returns the exception it builds (it does not raise
    it), so the caller sees an ordinary return. *)
Definition validate_assignment (attr : string) : M (option exn) :=
  self <- get ;;
  if negb (Ident.re_match attr) then
    ret (Some (StructureException
                 ("'" +:+ attr +:+ "' contains invalid character(s)")))
  else
    match dict self !! attr with
    | Some obj =>
        if bool_decide (attr ∉ scoped_names self) then
          raise (NamespaceCollision
                   ("Cannot assign to '" +:+ attr +:+ "', it is a builtin"))
        else
          raise (NamespaceCollision
                   ("'" +:+ attr +:+ "' has already been declared as a "
                    +:+ obj_str obj))
    | None =>
        match _scopes self with
        | [] => ret None
        | _ :: _ =>
            if is_reserved attr then
              raise (StructureException
                       ("'" +:+ attr +:+ "' is a reserved keyword"))
            else ret None
        end
    end.

(** [if self._scopes: self._scopes[-1].add(attr)] *)
Definition record_in_scope (attr : string)
    (scopes : list (gset string)) : list (gset string) :=
  match list_pop scopes with
  | None => scopes
  | Some (rest, top) => rest ++ [{[attr]} ∪ top]
  end.

Definition __setitem__ (attr : string) (obj : Obj) : M unit :=
  validate_assignment attr ;;
  self <- get ;;
  put {| dict := dict self;
         _scopes := record_in_scope attr (_scopes self) |} ;;
  self <- get ;;
  put {| dict := <[attr := obj]> (dict self); _scopes := _scopes self |}.

Definition __getitem__ (key : string) : M Obj :=
  self <- get ;;
  match dict self !! key with
  | None =>
      raise (UndeclaredDefinition ("'" +:+ key +:+ "' has not been declared"))
  | Some obj => ret obj
  end.

(** [del self[key]], inherited from [dict]. *)
Definition __delitem__ (key : string) : M unit :=
  self <- get ;;
  match dict self !! key with
  | None => raise (KeyError key)
  | Some _ =>
      put {| dict := delete key (dict self); _scopes := _scopes self |}
  end.

Definition __enter__ : M unit :=
  self <- get ;;
  match _scopes self with
  | [] =>
      raise (CompilerPanic
               "Context manager must be invoked via namespace.enter_scope()")
  | _ :: _ => ret tt
  end.

(** The popped set is traversed in the order [elements] lists it.  Python
    fixes no order for a set (it depends on the hash seed), so what is read
    off this definition is what holds for every order of traversal. *)
Definition __exit__ : M unit :=
  self <- get ;;
  match list_pop (_scopes self) with
  | None => raise (CompilerPanic "Bad use of namespace as a context manager")
  | Some (rest, top) =>
      put {| dict := dict self; _scopes := rest |} ;;
      for_each __delitem__ (elements top)
  end.

Definition update (other : list (string * Obj)) : M unit :=
  for_each (λ kv, __setitem__ kv.1 kv.2) other.

Definition enter_scope : M unit :=
  self <- get ;;
  put {| dict := dict self; _scopes := _scopes self ++ [∅] |} ;;
  self <- get ;;
  if Nat.eqb (length (_scopes self)) 1 then
    (* add mutable vars (`self`) to the initial scope *)
    update get_mutable_vars
  else ret tt.

Definition __init__ : M unit :=
  self <- get ;;
  put {| dict := dict self; _scopes := [] |} ;;
  update get_types ;;
  update get_constant_vars ;;
  update get_builtin_functions.

Definition clear : M unit :=
  self <- get ;;
  put {| dict := ∅; _scopes := _scopes self |} ;;
  __init__.

(** [Namespace()]: [__init__] run on a new, empty dictionary object. *)
Definition Namespace_new : outcome unit :=
  __init__ {| dict := ∅; _scopes := [] |}.

(** The state in which [__setitem__] leaves the object when it returns. *)
Definition bound (attr : string) (obj : Obj) (self : Namespace) : Namespace :=
  {| dict := <[attr := obj]> (dict self);
     _scopes := record_in_scope attr (_scopes self) |}.

Definition bound_all (l : list (string * Obj)) (self : Namespace) : Namespace :=
  foldl (λ s kv, bound kv.1 kv.2 s) self l.

(** [dict.update] of the plain dictionary: no validation, later entries
    replace earlier ones. *)
Definition dict_update (m : gmap string Obj) (l : list (string * Obj))
    : gmap string Obj :=
  foldl (λ m kv, <[kv.1 := kv.2]> m) m l.

(** The dictionary without the keys of a set. *)
Definition remove_keys (top : gset string) (m : gmap string Obj)
    : gmap string Obj :=
  filter (λ kv, kv.1 ∉ top) m.

(** The entries the constructor inserts, in the order it inserts them. *)
Definition bootstrap_items : list (string * Obj) :=
  get_types ++ get_constant_vars ++ get_builtin_functions.

(** The names [update] inserts without any of them being refused, one after
    the other, into a dictionary [m]: each matches the regular expression, is
    unbound and is no reserved word, and no two are equal. *)
Definition insertable (m : gmap string Obj) (l : list (string * Obj)) : Prop :=
  NoDup l.*1 ∧
  Forall (λ k, Ident.re_match k = true ∧ m !! k = None ∧ is_reserved k = false)
         l.*1.

(** ** The calls a client makes, and the states they reach *)

Inductive op : Type :=
| Insert (name : string) (d : Obj)
| Lookup (name : string)
| EnterScope
| ExitScope
| Reset.

(** The object after a call, whether the call returned or raised. *)
Definition step (self : Namespace) (o : op) : Namespace :=
  match o with
  | Insert name d => state_of (__setitem__ name d self)
  | Lookup name => state_of (__getitem__ name self)
  | EnterScope => state_of (enter_scope self)
  | ExitScope => state_of (__exit__ self)
  | Reset => state_of (clear self)
  end.

Inductive reachable : Namespace → Prop :=
| reachable_new fresh :
    Namespace_new = Return tt fresh → reachable fresh
| reachable_step self o :
    reachable self → reachable (step self o).

(** Every name recorded in a scope set is a key of the dictionary. *)
Definition scopes_bound (self : Namespace) : Prop :=
  ∀ top k, top ∈ _scopes self → k ∈ top → is_Some (dict self !! k).

(** The number of scope sets that record a name (I1 of the specification
    asks for at most one). *)
Definition occurrences (k : string) (scopes : list (gset string)) : nat :=
  length (filter (λ top, k ∈ top) scopes).

Definition scopes_disjoint (self : Namespace) : Prop :=
  ∀ k, (occurrences k (_scopes self) ≤ 1)%nat.

Definition namespace_inv (self : Namespace) : Prop :=
  scopes_bound self ∧ scopes_disjoint self.

(** A binding that no scope set records: no scope exit will remove it. *)
Definition permanent (k : string) (d : Obj) (self : Namespace) : Prop :=
  dict self !! k = Some d ∧ k ∉ scoped_names self.

Definition is_reset (o : op) : bool :=
  match o with Reset => true | _ => false end.

(** The calls that insert no name the regular expression rejects. *)
Definition matched_op (o : op) : Prop :=
  match o with
  | Insert name _ => Ident.re_match name = true
  | _ => True
  end.

(** The statement that [enter_scope] pushes one set and, on the first push,
    inserts and records every mutable-environment entry, read on the state
    the call leaves behind. *)
Definition enter_scope_inserts_all (self : Namespace) : Prop :=
  ∃ top,
    _scopes (state_of (enter_scope self)) = _scopes self ++ [top] ∧
    (_scopes self = [] →
     ∀ k d, (k, d) ∈ get_mutable_vars →
            dict (state_of (enter_scope self)) !! k = Some d ∧ k ∈ top) ∧
    (_scopes self ≠ [] →
     top = ∅ ∧ dict (state_of (enter_scope self)) = dict self).

(** ** The context manager, as callers use it

    [with namespace.enter_scope(): body].  The expression is evaluated and
    [__enter__] is called; if either raises, the statement raises and
    [__exit__] is not called.  Otherwise [__exit__] is called when the body
    ends, however it ends; it returns [None], so an exception of the body is
    raised again after it, unless [__exit__] itself raises. *)
Definition with_scope {A : Type} (body : M A) : M A :=
  enter_scope ;;
  __enter__ ;;
  λ self,
    match body self with
    | Return v self' => (__exit__ ;; ret v) self'
    | Raise e self' => (__exit__ ;; raise e) self'
    end.

(** ** The module global and the identity of objects

    Objects are kept in a store and named by their position in it;
    [_namespace] is the module global, [None] while the name is not
    defined. *)
Record World : Type := mkWorld {
  heap : list Namespace;
  _namespace : option nat
}.

(** The expression [Namespace()]: a new object, put in the store when
    [__init__] returns. *)
Definition Namespace_call (w : World) : World * (exn + nat) :=
  match Namespace_new with
  | Return _ fresh =>
      ({| heap := heap w ++ [fresh]; _namespace := _namespace w |},
       inr (length (heap w)))
  | Raise e _ => (w, inl e)
  end.

Definition get_namespace (w : World) : World * (exn + nat) :=
  match _namespace w with
  | Some ns => (w, inr ns)
  | None =>
      (* except NameError *)
      match Namespace_call w with
      | (w', inr ns) => ({| heap := heap w'; _namespace := Some ns |}, inr ns)
      | (w', inl e) => (w', inl e)
      end
  end.

(** [self is other] *)
Definition __eq__ (self other : nat) : bool := Nat.eqb self other.

(** A method called on the object at an address; the object is updated in
    place, whether the method returns or raises. *)
Definition call {A : Type} (ns : nat) (m : M A) (w : World)
    : option (World * (exn + A)) :=
  match heap w !! ns with
  | None => None
  | Some self =>
      let w' := {| heap := <[ns := state_of (m self)]> (heap w);
                   _namespace := _namespace w |} in
      match m self with
      | Return v _ => Some (w', inr v)
      | Raise e _ => Some (w', inl e)
      end
  end.

(** ** Lists and identifiers *)

Lemma list_pop_snoc {A : Type} (l : list A) (x : A) :
  list_pop (l ++ [x]) = Some (l, x).
Proof.
  induction l as [|y l IH]; simpl; [done|].
  by rewrite IH.
Qed.

Lemma list_pop_Some {A : Type} (l rest : list A) (x : A) :
  list_pop l = Some (rest, x) → l = rest ++ [x].
Proof.
  revert rest. induction l as [|y l IH]; intros rest; simpl; [done|].
  destruct (list_pop l) as [[r z]|] eqn:E.
  - intros [= <- <-]. simpl. f_equal. by apply IH.
  - intros [= <- <-]. destruct l as [|w l]; [done|].
    simpl in E. by destruct (list_pop l) as [[? ?]|].
Qed.

Lemma list_pop_None {A : Type} (l : list A) : list_pop l = None → l = [].
Proof.
  destruct l as [|y l]; simpl; [done|].
  by destruct (list_pop l) as [[? ?]|].
Qed.

Lemma record_in_scope_nil attr : record_in_scope attr [] = [].
Proof. done. Qed.

Lemma record_in_scope_snoc attr rest top :
  record_in_scope attr (rest ++ [top]) = rest ++ [{[attr]} ∪ top].
Proof. unfold record_in_scope. by rewrite list_pop_snoc. Qed.

Lemma grammar_char_tail_class c :
  Ascii.eqb c "_" || Ident.is_letter c || Ident.is_digit c = true →
  Ident.tail_class c = true.
Proof.
  unfold Ident.tail_class, Ident.is_letter, Ident.is_digit.
  destruct (Ascii.eqb c "_"), (Ident.in_range "a" "z" c),
    (Ident.in_range "A" "Z" c), (Ident.in_range "0" "9" c); done.
Qed.

Lemma all_chars_match_tail s :
  Ident.all_chars
    (λ c, Ascii.eqb c "_" || Ident.is_letter c || Ident.is_digit c) s = true →
  Ident.match_tail s = true.
Proof.
  induction s as [|c s IH]; simpl; [done|].
  intros [Hc Hs]%andb_prop. apply grammar_char_tail_class in Hc.
  destruct s as [|c' s]; [by rewrite Hc|].
  by rewrite Hc, IH.
Qed.

(** A name of the grammar is matched by the regular expression. *)
Lemma grammar_re_match name :
  Ident.grammar name = true → Ident.re_match name = true.
Proof.
  destruct name as [|c rest]; simpl; [done|].
  intros [Hc Hrest]%andb_prop.
  rewrite (all_chars_match_tail _ Hrest), andb_true_r.
  unfold Ident.head_class, Ident.is_letter in *.
  destruct (Ascii.eqb c "_"), (Ident.in_range "a" "z" c),
    (Ident.in_range "A" "Z" c); done.
Qed.

(** ** Insertion *)

Ltac run_monad :=
  unfold bind, get, put, ret, raise; simpl.

(** [__setitem__] raises what [validate_assignment] raises, leaving the
    object as it was, and otherwise binds the name. *)
Lemma setitem_unfold attr obj self :
  __setitem__ attr obj self =
    match validate_assignment attr self with
    | Return _ _ => Return tt (bound attr obj self)
    | Raise e _ => Raise e self
    end.
Proof.
  destruct self as [d scopes].
  unfold __setitem__, validate_assignment, bound. run_monad.
  destruct (Ident.re_match attr); simpl; [|done].
  destruct (d !! attr); [by case_bool_decide|].
  destruct scopes; [done|].
  by destruct (is_reserved attr).
Qed.

Lemma setitem_state attr obj self :
  state_of (__setitem__ attr obj self) = self ∨
  __setitem__ attr obj self = Return tt (bound attr obj self).
Proof.
  rewrite setitem_unfold.
  destruct (validate_assignment attr self); [by right | by left].
Qed.

Lemma setitem_returns attr obj self v self' :
  __setitem__ attr obj self = Return v self' → self' = bound attr obj self.
Proof.
  rewrite setitem_unfold.
  destruct (validate_assignment attr self); [|done].
  by intros [= _ <-].
Qed.

(** A name the regular expression rejects is bound all the same: the
    exception is returned to [__setitem__], which drops it. *)
Lemma setitem_unmatched attr obj self :
  Ident.re_match attr = false →
  __setitem__ attr obj self = Return tt (bound attr obj self).
Proof.
  intros Hre. rewrite setitem_unfold.
  unfold validate_assignment. run_monad. by rewrite Hre.
Qed.

Lemma setitem_unbound attr obj self :
  Ident.re_match attr = true →
  dict self !! attr = None →
  _scopes self = [] ∨ is_reserved attr = false →
  __setitem__ attr obj self = Return tt (bound attr obj self).
Proof.
  intros Hre Hnone Hok. rewrite setitem_unfold.
  unfold validate_assignment. run_monad. rewrite Hre, Hnone. simpl.
  destruct (_scopes self) as [|top scopes]; [done|].
  destruct Hok as [?| ->]; done.
Qed.

Lemma setitem_reserved attr obj self :
  Ident.re_match attr = true →
  dict self !! attr = None →
  _scopes self ≠ [] →
  is_reserved attr = true →
  __setitem__ attr obj self =
    Raise (StructureException ("'" +:+ attr +:+ "' is a reserved keyword")) self.
Proof.
  intros Hre Hnone Hopen Hres. rewrite setitem_unfold.
  unfold validate_assignment. run_monad. rewrite Hre, Hnone. simpl.
  destruct (_scopes self) as [|top scopes]; [done|].
  by rewrite Hres.
Qed.

(** For a name the regular expression accepts, a second binding is refused
    and nothing changes. *)
Lemma setitem_collision attr obj self prior :
  Ident.re_match attr = true →
  dict self !! attr = Some prior →
  __setitem__ attr obj self =
    Raise
      (NamespaceCollision
         (if bool_decide (attr ∉ scoped_names self)
          then "Cannot assign to '" +:+ attr +:+ "', it is a builtin"
          else "'" +:+ attr +:+ "' has already been declared as a "
               +:+ obj_str prior))
      self.
Proof.
  intros Hre Hsome. rewrite setitem_unfold.
  unfold validate_assignment. run_monad. rewrite Hre, Hsome. simpl.
  by case_bool_decide.
Qed.

Lemma elem_of_scoped_names self k :
  k ∈ scoped_names self ↔ ∃ top, top ∈ _scopes self ∧ k ∈ top.
Proof.
  unfold scoped_names. rewrite list_elem_of_join. split.
  - intros (l & Hk & Hl). apply list_elem_of_fmap in Hl as (top & -> & Htop).
    exists top. split; [done|]. by apply elem_of_elements.
  - intros (top & Htop & Hk). exists (elements top). split.
    + by apply elem_of_elements.
    + apply list_elem_of_fmap. by exists top.
Qed.

(** ** Lookup *)

Lemma getitem_bound key self obj :
  dict self !! key = Some obj → __getitem__ key self = Return obj self.
Proof. intros H. unfold __getitem__. run_monad. by rewrite H. Qed.

Lemma getitem_unbound key self :
  dict self !! key = None →
  __getitem__ key self =
    Raise (UndeclaredDefinition ("'" +:+ key +:+ "' has not been declared")) self.
Proof. intros H. unfold __getitem__. run_monad. by rewrite H. Qed.

(** ** Scope exit *)

Lemma lookup_remove_keys top m k :
  remove_keys top m !! k = if decide (k ∈ top) then None else m !! k.
Proof.
  unfold remove_keys. case_decide as Hk.
  - apply map_lookup_filter_None. destruct (m !! k) as [x|]; [right|by left].
    intros ? _ Hn. by apply Hn.
  - destruct (m !! k) as [x|] eqn:E.
    + by apply map_lookup_filter_Some.
    + apply map_lookup_filter_None. by left.
Qed.

Lemma lookup_delete_all (m : gmap string Obj) keys k :
  foldl (λ m k, delete k m) m keys !! k
  = if decide (k ∈ keys) then None else m !! k.
Proof.
  revert m. induction keys as [|key keys IH]; intros m; cbn [foldl].
  - case_decide as H; [by apply not_elem_of_nil in H | done].
  - rewrite IH. destruct (decide (k = key)) as [->|Hne].
    + rewrite lookup_delete_eq. clear IH.
      repeat case_decide; try done; exfalso; set_solver.
    + rewrite lookup_delete_ne by done. clear IH.
      repeat case_decide; try done; exfalso; set_solver.
Qed.

Lemma delitem_bound key self obj :
  dict self !! key = Some obj →
  __delitem__ key self =
    Return tt {| dict := delete key (dict self); _scopes := _scopes self |}.
Proof. intros H. unfold __delitem__. run_monad. by rewrite H. Qed.

Lemma delitem_unbound key self :
  dict self !! key = None → __delitem__ key self = Raise (KeyError key) self.
Proof. intros H. unfold __delitem__. run_monad. by rewrite H. Qed.

(** The loop of [__exit__], when every key is found. *)
Lemma delete_loop_returns keys self :
  NoDup keys →
  (∀ k, k ∈ keys → is_Some (dict self !! k)) →
  for_each __delitem__ keys self =
    Return tt {| dict := foldl (λ m k, delete k m) (dict self) keys;
                 _scopes := _scopes self |}.
Proof.
  revert self. induction keys as [|key keys IH]; intros self Hnd Hin.
  - by destruct self.
  - apply NoDup_cons in Hnd as [Hkey Hnd].
    destruct (Hin key) as [obj Hobj]; [set_solver|].
    simpl. unfold bind. rewrite (delitem_bound _ _ _ Hobj).
    rewrite IH; [done|done|]. simpl. intros k Hk.
    rewrite lookup_delete_ne by (intros ->; done).
    apply Hin. set_solver.
Qed.

(** The loop of [__exit__], whether or not it is cut short by a [KeyError]:
    the scope list is not touched and no key outside [keys] is. *)
Lemma delete_loop_frame keys self :
  _scopes (state_of (for_each __delitem__ keys self)) = _scopes self ∧
  ∀ k, k ∉ keys →
    dict (state_of (for_each __delitem__ keys self)) !! k = dict self !! k.
Proof.
  revert self. induction keys as [|key keys IH]; intros self; [done|].
  simpl. unfold bind.
  destruct (dict self !! key) as [obj|] eqn:E.
  - rewrite (delitem_bound _ _ _ E).
    destruct (IH {| dict := delete key (dict self); _scopes := _scopes self |})
      as [Hs Hd].
    split; [done|]. intros k Hk. rewrite Hd by set_solver. simpl.
    apply lookup_delete_ne. set_solver.
  - by rewrite (delitem_unbound _ _ E).
Qed.

(** A key that is not found stops the loop with a [KeyError]. *)
Lemma delete_loop_raises keys self k :
  k ∈ keys → dict self !! k = None →
  ∃ k' self', for_each __delitem__ keys self = Raise (KeyError k') self'.
Proof.
  revert self. induction keys as [|key keys IH]; intros self Hin Hnone.
  - by apply not_elem_of_nil in Hin.
  - simpl. unfold bind. destruct (dict self !! key) as [obj|] eqn:E.
    + rewrite (delitem_bound _ _ _ E). apply IH.
      * apply elem_of_cons in Hin as [->|Hin]; [congruence|done].
      * simpl. destruct (decide (key = k)) as [->|Hne]; [congruence|].
        by rewrite lookup_delete_ne.
    + rewrite (delitem_unbound _ _ E). by eexists _, _.
Qed.

Lemma exit_unfold self rest top :
  _scopes self = rest ++ [top] →
  __exit__ self =
    for_each __delitem__ (elements top) {| dict := dict self; _scopes := rest |}.
Proof.
  intros Hs. unfold __exit__. run_monad. by rewrite Hs, list_pop_snoc.
Qed.

Lemma exit_no_scope self :
  _scopes self = [] →
  __exit__ self =
    Raise (CompilerPanic "Bad use of namespace as a context manager") self.
Proof. intros Hs. unfold __exit__. run_monad. by rewrite Hs. Qed.

(** When the names of the innermost set are bound, [__exit__] returns,
    having popped the set and deleted exactly its names. *)
Lemma exit_returns self rest top :
  _scopes self = rest ++ [top] →
  (∀ k, k ∈ top → is_Some (dict self !! k)) →
  __exit__ self =
    Return tt {| dict := remove_keys top (dict self); _scopes := rest |}.
Proof.
  intros Hs Hin. rewrite (exit_unfold _ _ _ Hs).
  rewrite delete_loop_returns; simpl.
  - f_equal. f_equal. apply map_eq. intros k.
    rewrite lookup_delete_all, lookup_remove_keys.
    repeat case_decide; try done; exfalso; set_solver.
  - apply NoDup_elements.
  - intros k Hk. apply Hin. set_solver.
Qed.

(** However [__exit__] ends, the innermost set is popped and every binding
    not recorded in it is kept. *)
Lemma exit_frame self rest top :
  _scopes self = rest ++ [top] →
  _scopes (state_of (__exit__ self)) = rest ∧
  ∀ k, k ∉ top → dict (state_of (__exit__ self)) !! k = dict self !! k.
Proof.
  intros Hs. rewrite (exit_unfold _ _ _ Hs).
  destruct (delete_loop_frame (elements top)
              {| dict := dict self; _scopes := rest |}) as [H1 H2].
  split; [done|]. intros k Hk. rewrite H2; [done|]. set_solver.
Qed.

Lemma exit_raises self rest top k :
  _scopes self = rest ++ [top] →
  k ∈ top → dict self !! k = None →
  ∃ k' self', __exit__ self = Raise (KeyError k') self'.
Proof.
  intros Hs Hk Hnone. rewrite (exit_unfold _ _ _ Hs).
  apply (delete_loop_raises _ _ k); [set_solver|done].
Qed.

(** ** Bulk insertion *)

Lemma update_cons kv l self :
  update (kv :: l) self =
    match __setitem__ kv.1 kv.2 self with
    | Return _ self' => update l self'
    | Raise e self' => Raise e self'
    end.
Proof. done. Qed.

Lemma update_returns l self v self' :
  update l self = Return v self' → self' = bound_all l self.
Proof.
  revert self. induction l as [|kv l IH]; intros self.
  - by intros [= _ <-].
  - rewrite update_cons.
    destruct (__setitem__ kv.1 kv.2 self) as [u s|e s] eqn:E; [|done].
    apply setitem_returns in E as ->. apply IH.
Qed.

Lemma dict_bound_all l self :
  dict (bound_all l self) = dict_update (dict self) l.
Proof.
  revert self. induction l as [|kv l IH]; intros self; [done|].
  simpl. by rewrite IH.
Qed.

Lemma scopes_bound_all_nil l self :
  _scopes self = [] → _scopes (bound_all l self) = [].
Proof.
  revert self. induction l as [|kv l IH]; intros self Hs; [done|].
  simpl. apply IH. simpl. by rewrite Hs.
Qed.

Lemma scopes_bound_all_snoc l self rest top :
  _scopes self = rest ++ [top] →
  _scopes (bound_all l self) = rest ++ [list_to_set l.*1 ∪ top].
Proof.
  revert self top. induction l as [|kv l IH]; intros self top Hs; simpl.
  - rewrite Hs. do 2 f_equal. set_solver.
  - rewrite (IH _ ({[kv.1]} ∪ top)).
    + do 2 f_equal. set_solver.
    + simpl. by rewrite Hs, record_in_scope_snoc.
Qed.

(** Names that pass validation one after the other are all bound. *)
Lemma update_insertable l self :
  insertable (dict self) l → update l self = Return tt (bound_all l self).
Proof.
  revert self. induction l as [|[k v] l IH]; intros self [Hnd Hall]; [done|].
  simpl in Hnd, Hall. apply NoDup_cons in Hnd as [Hk Hnd].
  apply Forall_cons in Hall as [(Hre & Hnone & Hres) Hall].
  rewrite update_cons. simpl.
  rewrite setitem_unbound by auto. apply IH. split; [done|].
  simpl. rewrite Forall_forall in Hall |- *.
  intros k' Hin. destruct (Hall k' Hin) as (Hre' & Hnone' & Hres').
  split_and!; [done| |done].
  rewrite lookup_insert_ne; [done|]. intros ->. done.
Qed.

(** With no scope open, unbound names are bound whatever they look like. *)
Lemma update_bootstrap l self :
  _scopes self = [] →
  NoDup l.*1 →
  (∀ k, k ∈ l.*1 → dict self !! k = None) →
  update l self = Return tt (bound_all l self).
Proof.
  revert self. induction l as [|[k v] l IH]; intros self Hs Hnd Hnone; [done|].
  simpl in Hnd. apply NoDup_cons in Hnd as [Hk Hnd].
  rewrite update_cons. simpl.
  assert (__setitem__ k v self = Return tt (bound k v self)) as ->.
  { destruct (Ident.re_match k) eqn:Hre.
    - apply setitem_unbound; [done| |by left]. apply Hnone. set_solver.
    - by apply setitem_unmatched. }
  apply IH; [simpl; by rewrite Hs|done|].
  intros k' Hk'. simpl. rewrite lookup_insert_ne by (intros ->; done).
  apply Hnone. set_solver.
Qed.

(** However [update] ends, it leaves the number of scopes as it was; only
    the innermost set may have grown. *)
Lemma update_scopes_snoc l self rest top :
  _scopes self = rest ++ [top] →
  ∃ top', _scopes (state_of (update l self)) = rest ++ [top'].
Proof.
  revert self top. induction l as [|kv l IH]; intros self top Hs.
  - by exists top.
  - rewrite update_cons.
    destruct (__setitem__ kv.1 kv.2 self) as [u s|e s] eqn:E.
    + apply setitem_returns in E as ->.
      apply (IH _ ({[kv.1]} ∪ top)). simpl. by rewrite Hs, record_in_scope_snoc.
    + destruct (setitem_state kv.1 kv.2 self) as [Hst|Hst].
      * rewrite E in Hst. simpl in Hst. subst s. by exists top.
      * congruence.
Qed.

Lemma dict_update_app m l1 l2 :
  dict_update m (l1 ++ l2) = dict_update (dict_update m l1) l2.
Proof. apply foldl_app. Qed.

Lemma dom_dict_update m l :
  dom (dict_update m l) = list_to_set l.*1 ∪ dom m.
Proof.
  revert m. induction l as [|kv l IH]; intros m; simpl.
  - set_solver.
  - rewrite IH, dom_insert_L. set_solver.
Qed.

Lemma lookup_dict_update_Some m l k d :
  dict_update m l !! k = Some d → (k, d) ∈ l ∨ m !! k = Some d.
Proof.
  revert m. induction l as [|[k' v] l IH]; intros m; simpl; [by right|].
  intros [H|H]%IH; [left; set_solver|].
  destruct (decide (k' = k)) as [->|Hne].
  - rewrite lookup_insert_eq in H. injection H as ->. left. set_solver.
  - rewrite lookup_insert_ne in H by done. by right.
Qed.

Lemma lookup_dict_update_NoDup m l k d :
  NoDup l.*1 → (k, d) ∈ l → dict_update m l !! k = Some d.
Proof.
  revert m. induction l as [|[k' v] l IH]; intros m Hnd Hin.
  - by apply not_elem_of_nil in Hin.
  - simpl in Hnd. apply NoDup_cons in Hnd as [Hk Hnd].
    apply elem_of_cons in Hin as [[= <- <-]|Hin]; simpl.
    + assert (dom (dict_update (<[k:=d]> m) l) = list_to_set l.*1 ∪ dom (<[k:=d]> m))
        as Hdom by apply dom_dict_update.
      destruct (dict_update (<[k:=d]> m) l !! k) as [d'|] eqn:E.
      * apply lookup_dict_update_Some in E as [E|E].
        -- exfalso. apply Hk. apply list_elem_of_fmap. by exists (k, d').
        -- by rewrite lookup_insert_eq in E.
      * exfalso. apply not_elem_of_dom in E. rewrite Hdom, dom_insert_L in E.
        set_solver.
    + by apply IH.
Qed.

(** ** Scope entry *)

Lemma enter_scope_first self :
  _scopes self = [] →
  enter_scope self =
    update get_mutable_vars {| dict := dict self; _scopes := [∅] |}.
Proof. intros Hs. unfold enter_scope. run_monad. by rewrite Hs. Qed.

Lemma enter_scope_nested self :
  _scopes self ≠ [] →
  enter_scope self =
    Return tt {| dict := dict self; _scopes := _scopes self ++ [∅] |}.
Proof.
  intros Hs. unfold enter_scope. run_monad.
  destruct (_scopes self) as [|top [|top' scopes]]; done.
Qed.

(** ** Construction and reset *)

Lemma init_unfold self :
  __init__ self =
    (update get_types ;; update get_constant_vars ;;
     update get_builtin_functions) {| dict := dict self; _scopes := [] |}.
Proof. done. Qed.

Lemma clear_eq_new self : clear self = Namespace_new.
Proof. done. Qed.

Lemma new_returns v fresh :
  Namespace_new = Return v fresh →
  fresh = {| dict := dict_update ∅ bootstrap_items; _scopes := [] |}.
Proof.
  unfold Namespace_new. rewrite init_unfold. unfold bind. simpl.
  destruct (update get_types _) as [u1 s1|] eqn:E1; [|done].
  destruct (update get_constant_vars s1) as [u2 s2|] eqn:E2; [|done].
  intros E3.
  apply update_returns in E1, E2, E3. subst s1 s2 fresh.
  set (s0 := {| dict := ∅; _scopes := [] |}).
  assert (bound_all get_builtin_functions
            (bound_all get_constant_vars (bound_all get_types s0))
          = bound_all bootstrap_items s0) as ->.
  { unfold bound_all, bootstrap_items. by rewrite !foldl_app. }
  destruct (bound_all bootstrap_items s0) as [d sc] eqn:E.
  f_equal.
  - change d with (dict {| dict := d; _scopes := sc |}).
    by rewrite <- E, dict_bound_all.
  - change sc with (_scopes {| dict := d; _scopes := sc |}).
    rewrite <- E. by apply scopes_bound_all_nil.
Qed.

Lemma lookup_dict_update_None m l k :
  k ∉ l.*1 → m !! k = None → dict_update m l !! k = None.
Proof.
  intros Hk Hm. apply not_elem_of_dom. rewrite dom_dict_update.
  apply not_elem_of_dom in Hm. set_solver.
Qed.

(** Distinct bootstrap names are enough for the construction to succeed. *)
Lemma new_succeeds :
  NoDup bootstrap_items.*1 →
  Namespace_new = Return tt {| dict := dict_update ∅ bootstrap_items;
                               _scopes := [] |}.
Proof.
  unfold bootstrap_items. rewrite !fmap_app.
  intros (Ht & Hdisj & (Hc & Hdisj' & Hb)%NoDup_app)%NoDup_app.
  assert (∃ fresh, Namespace_new = Return tt fresh) as [fresh E].
  { unfold Namespace_new. rewrite init_unfold. unfold bind. simpl.
    set (s0 := {| dict := ∅; _scopes := [] |}).
    rewrite (update_bootstrap get_types s0) by done.
    rewrite (update_bootstrap get_constant_vars).
    - rewrite (update_bootstrap get_builtin_functions); [by eexists| |done|].
      + by do 2 apply scopes_bound_all_nil.
      + intros k Hk. rewrite !dict_bound_all.
        apply lookup_dict_update_None; [set_solver|].
        apply lookup_dict_update_None; [set_solver|done].
    - by apply scopes_bound_all_nil.
    - done.
    - intros k Hk. rewrite dict_bound_all.
      apply lookup_dict_update_None; [set_solver|done]. }
  rewrite E. f_equal. by apply (new_returns tt).
Qed.

Lemma reachable_new_returns self :
  reachable self → ∃ fresh, Namespace_new = Return tt fresh.
Proof. induction 1; eauto. Qed.

Lemma reachable_run self ops :
  reachable self → reachable (foldl step self ops).
Proof.
  revert self. induction ops as [|o ops IH]; intros self H; [done|].
  simpl. apply IH. by constructor.
Qed.

(** ** Bindings made outside every scope *)

Lemma scoped_names_no_scope self k :
  _scopes self = [] → k ∉ scoped_names self.
Proof.
  intros Hs (top & Htop & _)%elem_of_scoped_names.
  rewrite Hs in Htop. by apply not_elem_of_nil in Htop.
Qed.

Lemma permanent_setitem k d attr obj self :
  Ident.re_match k = true → permanent k d self →
  permanent k d (state_of (__setitem__ attr obj self)).
Proof.
  intros Hre [Hd Hk].
  destruct (setitem_state attr obj self) as [->|Hret]; [done|].
  assert (attr ≠ k) as Hne.
  { intros ->. by rewrite (setitem_collision _ _ _ _ Hre Hd) in Hret. }
  rewrite Hret. simpl. split.
  - simpl. by rewrite lookup_insert_ne.
  - intros (X & HX & HkX)%elem_of_scoped_names. simpl in HX.
    apply Hk, elem_of_scoped_names. unfold record_in_scope in HX.
    destruct (list_pop (_scopes self)) as [[rest top]|] eqn:E.
    + apply list_pop_Some in E. rewrite E.
      apply elem_of_app in HX as [HX| ->%list_elem_of_singleton].
      * exists X. split; [set_solver|done].
      * exists top. split; [set_solver|]. set_solver.
    + by exists X.
Qed.

Lemma permanent_update k d l self :
  Ident.re_match k = true → permanent k d self →
  permanent k d (state_of (update l self)).
Proof.
  intros Hre. revert self. induction l as [|kv l IH]; intros self Hp; [done|].
  rewrite update_cons.
  pose proof (permanent_setitem k d kv.1 kv.2 self Hre Hp) as Hset.
  destruct (__setitem__ kv.1 kv.2 self) as [u s|e s]; simpl in Hset; [|done].
  by apply IH.
Qed.

Lemma permanent_enter_scope k d self :
  Ident.re_match k = true → permanent k d self →
  permanent k d (state_of (enter_scope self)).
Proof.
  intros Hre [Hd Hk].
  assert (permanent k d {| dict := dict self; _scopes := _scopes self ++ [∅] |})
    as Hpush.
  { split; [done|]. intros (X & HX & HkX)%elem_of_scoped_names. simpl in HX.
    apply elem_of_app in HX as [HX| ->%list_elem_of_singleton]; [|set_solver].
    apply Hk, elem_of_scoped_names. by exists X. }
  destruct (_scopes self) as [|top scopes] eqn:Hs.
  - rewrite enter_scope_first by done. by apply permanent_update.
  - rewrite enter_scope_nested by (by rewrite Hs). simpl. by rewrite Hs.
Qed.

Lemma permanent_exit k d self :
  permanent k d self → permanent k d (state_of (__exit__ self)).
Proof.
  intros [Hd Hk].
  destruct (list_pop (_scopes self)) as [[rest top]|] eqn:E.
  - apply list_pop_Some in E.
    destruct (exit_frame _ _ _ E) as [Hs Hframe].
    assert (k ∉ top) as Hktop.
    { intros HkX. apply Hk, elem_of_scoped_names. exists top.
      split; [rewrite E; set_solver|done]. }
    split; [by rewrite Hframe|].
    intros (X & HX & HkX)%elem_of_scoped_names. rewrite Hs in HX.
    apply Hk, elem_of_scoped_names. exists X.
    split; [rewrite E; set_solver|done].
  - apply list_pop_None in E. by rewrite exit_no_scope.
Qed.

(** Whatever is called short of a reset, the binding stays. *)
Lemma permanent_run k d self ops :
  Ident.re_match k = true → permanent k d self →
  Forall (λ o, is_reset o = false) ops →
  permanent k d (foldl step self ops).
Proof.
  intros Hre. revert self.
  induction ops as [|o ops IH]; intros self Hp Hops; [done|].
  apply Forall_cons in Hops as [Ho Hops]. simpl. apply IH; [|done].
  destruct o as [name obj|name| | |]; simpl.
  - by apply permanent_setitem.
  - unfold __getitem__. run_monad. by destruct (dict self !! name).
  - by apply permanent_enter_scope.
  - by apply permanent_exit.
  - done.
Qed.

(** ** The properties of the specification *)

(** C2: a name of the identifier grammar that is no reserved word and is not
    bound can be inserted, and a lookup made right after the insertion
    returns the very definition that was inserted. *)
Theorem insert_then_lookup name d self :
  Ident.grammar name = true →
  is_reserved name = false →
  dict self !! name = None →
  ∃ self',
    __setitem__ name d self = Return tt self' ∧
    __getitem__ name self' = Return d self'.
Proof.
  intros Hg Hres Hnone. exists (bound name d self). split.
  - apply setitem_unbound; [by apply grammar_re_match|done|by right].
  - apply getitem_bound. simpl. apply lookup_insert_eq.
Qed.

(** C5: an unbound name of the identifier grammar whose lowercased form is a
    reserved keyword, or whose uppercased form is an opcode, is refused with
    the reserved-keyword [StructureException] while a scope is open, and the
    same insertion succeeds with no scope open: the name is bound, no scope
    records it, and it stays bound to that definition through every later
    call short of a reset. *)
Theorem reserved_name_scoped_or_bootstrap name d self :
  Ident.grammar name = true →
  dict self !! name = None →
  is_reserved name = true →
  (_scopes self ≠ [] →
   __setitem__ name d self =
     Raise (StructureException ("'" +:+ name +:+ "' is a reserved keyword"))
           self) ∧
  (_scopes self = [] →
   __setitem__ name d self =
     Return tt {| dict := <[name := d]> (dict self); _scopes := [] |} ∧
   ∀ ops, Forall (λ o, is_reset o = false) ops →
          dict (foldl step (state_of (__setitem__ name d self)) ops) !! name
          = Some d).
Proof.
  intros Hg%grammar_re_match Hnone Hres. split; intros Hs.
  - by apply setitem_reserved.
  - rewrite setitem_unbound by auto. unfold bound. rewrite Hs.
    split; [done|]. intros ops Hops. simpl.
    apply (permanent_run name d); [done| |done]. split.
    + simpl. apply lookup_insert_eq.
    + by apply scoped_names_no_scope.
Qed.

(** C6: with no scope open, [__exit__] raises [CompilerPanic], which is none
    of the exceptions reported to the user ([StructureException],
    [NamespaceCollision], [UndeclaredDefinition]), and the object is left as
    it was. *)
Theorem exit_without_scope_panics self :
  _scopes self = [] →
  __exit__ self =
    Raise (CompilerPanic "Bad use of namespace as a context manager") self ∧
  (∀ msg, user_facing (CompilerPanic msg) = false) ∧
  ∀ msg msg', CompilerPanic msg ≠ StructureException msg' ∧
              CompilerPanic msg ≠ NamespaceCollision msg' ∧
              CompilerPanic msg ≠ UndeclaredDefinition msg'.
Proof.
  intros Hs. split; [by apply exit_no_scope|]. by split.
Qed.

(** C9: a lookup returns a definition exactly when the name is bound, and
    then the bound one; it raises [UndeclaredDefinition] exactly when the
    name is not bound; either way it leaves dictionary and scopes as they
    were. *)
Theorem lookup_iff_bound name self :
  (∀ d, __getitem__ name self = Return d self ↔ dict self !! name = Some d) ∧
  ((∃ d self', __getitem__ name self = Return d self') ↔
   name ∈ dom (dict self)) ∧
  ((∃ msg, __getitem__ name self = Raise (UndeclaredDefinition msg) self) ↔
   name ∉ dom (dict self)) ∧
  (∀ e self', __getitem__ name self = Raise e self' →
     e = UndeclaredDefinition ("'" +:+ name +:+ "' has not been declared")) ∧
  state_of (__getitem__ name self) = self.
Proof.
  rewrite not_elem_of_dom, elem_of_dom.
  destruct (dict self !! name) as [obj|] eqn:E.
  - rewrite (getitem_bound _ _ _ E). split_and!; try done.
    + intros d. split; congruence.
    + split; [by eexists|]. by eexists _, _.
    + split; [by intros [? ?]|done].
  - rewrite (getitem_unbound _ _ E). split_and!; try done.
    + split; [by intros (? & ? & ?)|by intros [? ?]].
    + split; [done|]. by eexists.
    + by intros e self' [= <- _].
Qed.

(** C8: in every reachable state, [clear] returns and leaves the object in
    the state of a newly constructed [Namespace]: no scope, and a dictionary
    holding the entries of the three bootstrap mappings and nothing else. *)
Theorem clear_restores_fresh self :
  reachable self →
  ∃ fresh,
    Namespace_new = Return tt fresh ∧
    clear self = Return tt fresh ∧
    _scopes fresh = [] ∧
    dict fresh = dict_update ∅ bootstrap_items ∧
    dom (dict fresh) = list_to_set bootstrap_items.*1 ∧
    ∀ k d, dict fresh !! k = Some d → (k, d) ∈ bootstrap_items.
Proof.
  intros [fresh E]%reachable_new_returns. exists fresh.
  rewrite clear_eq_new. split_and!; try done.
  all: apply new_returns in E as ->; simpl; try done.
  - rewrite dom_dict_update. set_solver.
  - intros k d [H|H]%lookup_dict_update_Some; [done|].
    by rewrite lookup_empty in H.
Qed.

(** C7, as amended: [enter_scope] always pushes exactly one set.  With a
    scope already open it does nothing else: the pushed set is empty and the
    dictionary is unchanged.  With no scope open, and the names of the
    mutable environment passing the validation of an insertion, it returns
    with every entry of the mutable environment bound and the pushed set
    holding exactly their names. *)
Theorem enter_scope_pushes self :
  (∃ top, _scopes (state_of (enter_scope self)) = _scopes self ++ [top]) ∧
  (_scopes self ≠ [] →
   enter_scope self =
     Return tt {| dict := dict self; _scopes := _scopes self ++ [∅] |}) ∧
  (_scopes self = [] →
   insertable (dict self) get_mutable_vars →
   ∃ self',
     enter_scope self = Return tt self' ∧
     _scopes self' = [list_to_set get_mutable_vars.*1] ∧
     dict self' = dict_update (dict self) get_mutable_vars ∧
     (∀ k d, (k, d) ∈ get_mutable_vars → dict self' !! k = Some d) ∧
     (∀ k, k ∉ get_mutable_vars.*1 → dict self' !! k = dict self !! k)).
Proof.
  split_and!.
  - destruct (_scopes self) as [|top scopes] eqn:Hs.
    + rewrite enter_scope_first by done.
      by apply (update_scopes_snoc _ _ [] ∅).
    + rewrite enter_scope_nested by (by rewrite Hs). simpl. rewrite Hs. eauto.
  - apply enter_scope_nested.
  - intros Hs Hins. rewrite enter_scope_first by done.
    rewrite update_insertable by done. eexists. split; [done|].
    rewrite dict_bound_all,
      (scopes_bound_all_snoc _ _ [] ∅) by done. simpl.
    split_and!; try done.
    + f_equal. set_solver.
    + intros k d Hin. apply lookup_dict_update_NoDup; [apply Hins|done].
    + intros k Hk. destruct (dict self !! k) as [d|] eqn:E.
      * destruct (dict_update (dict self) get_mutable_vars !! k) as [d'|] eqn:E'.
        -- apply lookup_dict_update_Some in E' as [E'|E']; [|congruence].
           exfalso. apply Hk. apply list_elem_of_fmap. by exists (k, d').
        -- apply not_elem_of_dom in E'. rewrite dom_dict_update in E'.
           exfalso. apply E'. apply elem_of_union_r, elem_of_dom. by eexists.
      * by apply lookup_dict_update_None.
Qed.

(** C1 does not hold of the code: inserting ["1abc"] or ["foo-bar"], neither
    of which is an identifier, raises nothing.  [validate_assignment] hands
    its [StructureException] back as a return value, [__setitem__] drops it,
    and the name is bound, in whatever state the insertion is made. *)
Theorem malformed_names_are_bound d self :
  Ident.grammar "1abc" = false ∧
  Ident.grammar "foo-bar" = false ∧
  validate_assignment "1abc" self =
    Return (Some (StructureException "'1abc' contains invalid character(s)"))
           self ∧
  __setitem__ "1abc" d self = Return tt (bound "1abc" d self) ∧
  __setitem__ "foo-bar" d self = Return tt (bound "foo-bar" d self) ∧
  __getitem__ "1abc" (bound "1abc" d self) = Return d (bound "1abc" d self).
Proof.
  split_and!.
  - reflexivity.
  - reflexivity.
  - reflexivity.
  - by apply setitem_unmatched.
  - by apply setitem_unmatched.
  - apply getitem_bound. simpl. apply lookup_insert_eq.
Qed.

(** C4 does not hold of the code for a bound name that the regular
    expression rejects: once ["1abc"] is bound, a second insertion of it
    raises no [NamespaceCollision] but returns, and the earlier definition is
    replaced.  The collision test is skipped by the early return of
    [validate_assignment]. *)
Theorem rebinding_malformed_name_overwrites d1 d2 self :
  __setitem__ "1abc" d1 self = Return tt (bound "1abc" d1 self) ∧
  dict (bound "1abc" d1 self) !! "1abc" = Some d1 ∧
  __setitem__ "1abc" d2 (bound "1abc" d1 self)
    = Return tt (bound "1abc" d2 (bound "1abc" d1 self)) ∧
  dict (bound "1abc" d2 (bound "1abc" d1 self)) !! "1abc" = Some d2.
Proof.
  split_and!.
  - by apply setitem_unmatched.
  - simpl. apply lookup_insert_eq.
  - by apply setitem_unmatched.
  - simpl. apply lookup_insert_eq.
Qed.

(** When every name of the innermost set is bound, [__exit__] returns,
    having popped that set and removed exactly its names; the bindings of
    all other names are untouched. *)
Lemma exit_scope_removes_innermost self rest top :
  _scopes self = rest ++ [top] →
  (∀ k, k ∈ top → is_Some (dict self !! k)) →
  ∃ self',
    __exit__ self = Return tt self' ∧
    _scopes self' = rest ∧
    ∀ k, dict self' !! k = if decide (k ∈ top) then None else dict self !! k.
Proof.
  intros Hs Hin. eexists. split; [by apply exit_returns|].
  split; [done|]. intros k. apply lookup_remove_keys.
Qed.

(** ** The scope invariant, for names the regular expression accepts *)

Lemma occurrences_snoc k rest top :
  occurrences k (rest ++ [top])
  = occurrences k rest + (if decide (k ∈ top) then 1 else 0).
Proof.
  unfold occurrences. rewrite filter_app, length_app. f_equal.
  rewrite filter_cons. by case_decide.
Qed.

Lemma occurrences_pos k scopes top :
  top ∈ scopes → k ∈ top → (1 ≤ occurrences k scopes)%nat.
Proof.
  intros Hin Hk. unfold occurrences.
  assert (top ∈ filter (λ top, k ∈ top) scopes) as H
    by (by apply list_elem_of_filter).
  destruct (filter _ scopes); [by apply not_elem_of_nil in H|simpl; lia].
Qed.

Lemma occurrences_zero k scopes :
  (∀ top, top ∈ scopes → k ∉ top) → occurrences k scopes = 0.
Proof.
  intros H. unfold occurrences.
  destruct (filter _ scopes) as [|top l] eqn:E; [done|].
  assert (top ∈ filter (λ top, k ∈ top) scopes) as Hin
    by (rewrite E; left).
  apply list_elem_of_filter in Hin as [Hk Hin]. by destruct (H top Hin).
Qed.

Lemma scopes_nil_or_snoc (scopes : list (gset string)) :
  scopes = [] ∨ ∃ rest top, scopes = rest ++ [top].
Proof.
  destruct (list_pop scopes) as [[rest top]|] eqn:E.
  - right. exists rest, top. by apply list_pop_Some.
  - left. by apply list_pop_None.
Qed.

Lemma inv_no_scope self : _scopes self = [] → namespace_inv self.
Proof.
  intros Hs. split.
  - intros top k Hin. rewrite Hs in Hin. by apply not_elem_of_nil in Hin.
  - intros k. rewrite Hs. unfold occurrences. simpl. lia.
Qed.

(** Binding an unbound name keeps the invariant. *)
Lemma inv_bound attr obj self :
  namespace_inv self → dict self !! attr = None →
  namespace_inv (bound attr obj self).
Proof.
  intros [Hb Hd] Hnone.
  destruct (scopes_nil_or_snoc (_scopes self)) as [Hs|(rest & top & Hs)].
  { apply inv_no_scope. simpl. by rewrite Hs. }
  assert (∀ X, X ∈ _scopes self → attr ∉ X) as Hfresh.
  { intros X HX Hin. destruct (Hb X attr HX Hin) as [? ?]. congruence. }
  split.
  - intros X k. simpl. rewrite Hs, record_in_scope_snoc.
    intros [HX| ->%list_elem_of_singleton]%elem_of_app Hk.
    + rewrite lookup_insert_ne.
      * apply (Hb X); [rewrite Hs; set_solver|done].
      * intros ->. apply (Hfresh X); [rewrite Hs; set_solver|done].
    + destruct (decide (attr = k)) as [->|Hne].
      * rewrite lookup_insert_eq. by eexists.
      * rewrite lookup_insert_ne by done.
        apply (Hb top); [rewrite Hs|]; set_solver.
  - intros k. simpl. rewrite Hs, record_in_scope_snoc, occurrences_snoc.
    specialize (Hd k). rewrite Hs, occurrences_snoc in Hd.
    destruct (decide (k = attr)) as [->|Hne].
    + rewrite (occurrences_zero attr rest).
      * destruct (decide (attr ∈ {[attr]} ∪ top)); simpl; lia.
      * intros X HX. apply Hfresh. rewrite Hs. set_solver.
    + destruct (decide (k ∈ top)), (decide (k ∈ {[attr]} ∪ top));
        try lia; exfalso; set_solver.
Qed.

Lemma inv_setitem attr obj self :
  namespace_inv self → Ident.re_match attr = true →
  namespace_inv (state_of (__setitem__ attr obj self)).
Proof.
  intros Hinv Hre. destruct (dict self !! attr) as [prior|] eqn:E.
  - by rewrite (setitem_collision _ obj _ _ Hre E).
  - destruct (setitem_state attr obj self) as [->| ->]; [done|].
    by apply inv_bound.
Qed.

Lemma inv_update l self :
  namespace_inv self → Forall (λ k, Ident.re_match k = true) l.*1 →
  namespace_inv (state_of (update l self)).
Proof.
  revert self. induction l as [|kv l IH]; intros self Hinv Hall; [done|].
  simpl in Hall. apply Forall_cons in Hall as [Hre Hall].
  rewrite update_cons.
  pose proof (inv_setitem kv.1 kv.2 self Hinv Hre) as Hset.
  destruct (__setitem__ kv.1 kv.2 self) as [u s|e s]; simpl in Hset.
  - by apply IH.
  - done.
Qed.

Lemma inv_enter_scope self :
  namespace_inv self →
  Forall (λ k, Ident.re_match k = true) get_mutable_vars.*1 →
  namespace_inv (state_of (enter_scope self)).
Proof.
  intros [Hb Hd] Hall.
  assert (namespace_inv {| dict := dict self; _scopes := _scopes self ++ [∅] |})
    as Hpush.
  { split.
    - intros X k. simpl.
      intros [HX| ->%list_elem_of_singleton]%elem_of_app Hk; [by eapply Hb|].
      set_solver.
    - intros k. simpl. rewrite occurrences_snoc. specialize (Hd k).
      case_decide; [set_solver|lia]. }
  destruct (_scopes self) as [|top scopes] eqn:Hs.
  - rewrite enter_scope_first by done. by apply inv_update.
  - rewrite enter_scope_nested by (by rewrite Hs). simpl. by rewrite Hs.
Qed.

Lemma inv_exit self :
  namespace_inv self → namespace_inv (state_of (__exit__ self)).
Proof.
  intros [Hb Hd].
  destruct (scopes_nil_or_snoc (_scopes self)) as [Hs|(rest & top & Hs)].
  { rewrite exit_no_scope by done. by split. }
  rewrite (exit_returns _ _ _ Hs).
  2:{ intros k Hk. apply (Hb top); [rewrite Hs; set_solver|done]. }
  simpl. split.
  - intros X k HX Hk. simpl in *. rewrite lookup_remove_keys.
    specialize (Hd k). rewrite Hs, occurrences_snoc in Hd.
    pose proof (occurrences_pos k rest X HX Hk).
    destruct (decide (k ∈ top)); [lia|].
    apply (Hb X); [rewrite Hs; set_solver|done].
  - intros k. simpl. specialize (Hd k).
    rewrite Hs, occurrences_snoc in Hd. lia.
Qed.

Lemma update_scopes_nil l self :
  _scopes self = [] → _scopes (state_of (update l self)) = [].
Proof.
  revert self. induction l as [|kv l IH]; intros self Hs; [done|].
  rewrite update_cons.
  destruct (setitem_state kv.1 kv.2 self) as [Hst|Hst].
  - destruct (__setitem__ kv.1 kv.2 self) as [u s|e s]; simpl in Hst; subst s.
    + by apply IH.
    + done.
  - rewrite Hst. apply IH. simpl. by rewrite Hs.
Qed.

Lemma init_scopes_nil self : _scopes (state_of (__init__ self)) = [].
Proof.
  rewrite init_unfold. unfold bind.
  set (s0 := {| dict := dict self; _scopes := [] |}).
  pose proof (update_scopes_nil get_types s0 eq_refl) as H1.
  destruct (update get_types s0) as [u1 s1|e1 s1]; simpl in H1; [|done].
  pose proof (update_scopes_nil get_constant_vars s1 H1) as H2.
  destruct (update get_constant_vars s1) as [u2 s2|e2 s2]; simpl in H2; [|done].
  by apply update_scopes_nil.
Qed.

Lemma inv_step self o :
  Forall (λ k, Ident.re_match k = true) get_mutable_vars.*1 →
  namespace_inv self → matched_op o → namespace_inv (step self o).
Proof.
  intros Hmut Hinv Ho. destruct o as [name d|name| | |]; simpl.
  - by apply inv_setitem.
  - unfold __getitem__. run_monad. by destruct (dict self !! name).
  - by apply inv_enter_scope.
  - by apply inv_exit.
  - apply inv_no_scope. apply init_scopes_nil.
Qed.

(** As long as no inserted name is one the regular expression rejects, the
    names recorded in the scope sets are bound, each in one set only, and so
    [__exit__] finds every key it deletes. *)
Lemma inv_matched_run fresh ops :
  Forall (λ k, Ident.re_match k = true) get_mutable_vars.*1 →
  Namespace_new = Return tt fresh →
  Forall matched_op ops →
  namespace_inv (foldl step fresh ops) ∧
  ∀ e self', __exit__ (foldl step fresh ops) = Raise e self' →
             ∃ msg, e = CompilerPanic msg.
Proof.
  intros Hmut Hnew Hops.
  assert (namespace_inv fresh) as Hinv.
  { apply inv_no_scope. apply new_returns in Hnew. by subst fresh. }
  revert fresh Hinv Hnew Hops.
  assert (∀ s, namespace_inv s → Forall matched_op ops →
               namespace_inv (foldl step s ops)) as Hrun.
  { induction ops as [|o ops IH]; intros s Hs Hall; [done|].
    apply Forall_cons in Hall as [Ho Hall]. simpl.
    apply IH; [|done]. by apply inv_step. }
  intros fresh Hinv _ Hops. split; [by apply Hrun|].
  destruct (Hrun fresh Hinv Hops) as [Hb _].
  set (s := foldl step fresh ops) in *.
  destruct (scopes_nil_or_snoc (_scopes s)) as [Hs|(rest & top & Hs)].
  - rewrite exit_no_scope by done. intros e self' [= <- _]. by eexists.
  - rewrite (exit_returns _ _ _ Hs); [done|].
    intros k Hk. apply (Hb top); [rewrite Hs; set_solver|done].
Qed.

(** ** Further properties of the code *)

Lemma delete_loop_raise_unbound keys self e self' :
  NoDup keys →
  for_each __delitem__ keys self = Raise e self' →
  ∃ k, e = KeyError k ∧ k ∈ keys ∧ dict self !! k = None.
Proof.
  revert self. induction keys as [|key keys IH]; intros self Hnd; [done|].
  apply NoDup_cons in Hnd as [Hkey Hnd]. simpl. unfold bind.
  destruct (dict self !! key) as [obj|] eqn:E.
  - rewrite (delitem_bound _ _ _ E). intros (k & -> & Hk & Hnone)%IH; [|done].
    exists k. split; [done|]. split; [set_solver|].
    simpl in Hnone. rewrite lookup_delete_ne in Hnone; [done|].
    intros ->. done.
  - rewrite (delitem_unbound _ _ E). intros [= <- _].
    exists key. split; [done|]. split; [set_solver|done].
Qed.

(** In whatever order the keys are taken, a loop over keys of which exactly
    one is unbound raises [KeyError] for that one. *)
Lemma delete_loop_raises_missing keys self k :
  NoDup keys →
  k ∈ keys →
  dict self !! k = None →
  (∀ k', k' ∈ keys → k' ≠ k → is_Some (dict self !! k')) →
  ∃ self',
    for_each __delitem__ keys self = Raise (KeyError k) self' ∧
    _scopes self' = _scopes self.
Proof.
  intros Hnd Hk Hnone Hothers.
  destruct (delete_loop_raises keys self k Hk Hnone) as (k' & self' & E).
  destruct (delete_loop_frame keys self) as [Hs _]. rewrite E in Hs.
  destruct (delete_loop_raise_unbound _ _ _ _ Hnd E)
    as (k'' & [= ->] & Hin & Hnone'').
  destruct (decide (k'' = k)) as [->|Hne]; [by exists self'|].
  destruct (Hothers k'' Hin Hne) as [? ?]. congruence.
Qed.

(** X1: a bound name that the regular expression accepts is never bound
    again.  The insertion raises [NamespaceCollision], with the builtin
    message when no open scope records the name and with the message naming
    the earlier definition otherwise, whether or not the name is a reserved
    word and whether or not a scope is open; the object is unchanged and the
    earlier definition is still the one found. *)
Theorem bound_identifier_is_refused attr obj self prior :
  Ident.re_match attr = true →
  dict self !! attr = Some prior →
  __setitem__ attr obj self =
    Raise
      (NamespaceCollision
         (if bool_decide (Exists (λ top, attr ∈ top) (_scopes self))
          then "'" +:+ attr +:+ "' has already been declared as a "
               +:+ obj_str prior
          else "Cannot assign to '" +:+ attr +:+ "', it is a builtin"))
      self ∧
  __getitem__ attr (state_of (__setitem__ attr obj self))
    = Return prior self.
Proof.
  intros Hre Hprior. rewrite (setitem_collision _ _ _ _ Hre Hprior). simpl.
  split; [|by apply getitem_bound].
  do 2 f_equal.
  destruct (decide (attr ∈ scoped_names self)) as [Hin|Hout].
  - rewrite bool_decide_eq_false_2 by (intros Hn; by apply Hn).
    rewrite bool_decide_eq_true_2; [done|].
    apply elem_of_scoped_names in Hin. by apply Exists_exists.
  - rewrite bool_decide_eq_true_2 by done.
    rewrite bool_decide_eq_false_2; [done|].
    intros Hex%Exists_exists. by apply Hout, elem_of_scoped_names.
Qed.

(** X2: an insertion either binds the name, recording it in the innermost
    open scope and in no other, or it raises a [NamespaceCollision] or a
    [StructureException] and leaves the object exactly as it was.  It is accepted when
    the regular expression rejects the name, or when the name is unbound and
    either no scope is open or the name is no reserved word. *)
Theorem insertion_binds_or_refuses attr obj self :
  (if negb (Ident.re_match attr)
      || bool_decide (dict self !! attr = None)
         && (bool_decide (_scopes self = []) || negb (is_reserved attr))
   then __setitem__ attr obj self =
          Return tt {| dict := <[attr := obj]> (dict self);
                       _scopes := record_in_scope attr (_scopes self) |}
   else ∃ e msg, __setitem__ attr obj self = Raise e self ∧
                 (e = NamespaceCollision msg ∨ e = StructureException msg) ∧
                 user_facing e = true) ∧
  record_in_scope attr [] = [] ∧
  ∀ rest top, record_in_scope attr (rest ++ [top]) = rest ++ [{[attr]} ∪ top].
Proof.
  split; [|split; [done|apply record_in_scope_snoc]].
  destruct (Ident.re_match attr) eqn:Hre; simpl;
    [|by apply setitem_unmatched].
  case_bool_decide as Hd; simpl.
  - case_bool_decide as Hs; simpl.
    + apply setitem_unbound; auto.
    + destruct (is_reserved attr) eqn:Hres; simpl.
      * eexists _, _. split; [by apply setitem_reserved|]. split; [by right|done].
      * apply setitem_unbound; auto.
  - destruct (dict self !! attr) as [prior|] eqn:E; [|done].
    eexists _, _. split; [by eapply setitem_collision|]. split; [by left|done].
Qed.

(** X3: with a scope open, [__exit__] pops the innermost set however it
    ends, and never touches the binding of a name that set does not record.
    It returns exactly when every name of the set is bound, and has then
    unbound all of them; otherwise it raises [KeyError] for a name of the
    set that was not bound. *)
Theorem exit_pops_innermost_scope self rest top :
  _scopes self = rest ++ [top] →
  _scopes (state_of (__exit__ self)) = rest ∧
  (∀ k, k ∉ top → dict (state_of (__exit__ self)) !! k = dict self !! k) ∧
  ((∃ self', __exit__ self = Return tt self') ↔
   ∀ k, k ∈ top → is_Some (dict self !! k)) ∧
  (∀ self', __exit__ self = Return tt self' →
            ∀ k, k ∈ top → dict self' !! k = None) ∧
  (∀ e self', __exit__ self = Raise e self' →
              ∃ k, e = KeyError k ∧ k ∈ top ∧ dict self !! k = None).
Proof.
  intros Hs. destruct (exit_frame _ _ _ Hs) as [Hpop Hframe].
  assert ((∃ self', __exit__ self = Return tt self') →
          ∀ k, k ∈ top → is_Some (dict self !! k)) as Hret.
  { intros [self' E] k Hk. destruct (dict self !! k) as [d|] eqn:Ek; [done|].
    destruct (exit_raises _ _ _ _ Hs Hk Ek) as (k' & s' & E'). congruence. }
  split_and!; try done.
  - split; [done|]. intros Hall. eexists. by apply exit_returns.
  - intros self' E k Hk. pose proof (Hret (ex_intro _ self' E)) as Hall.
    rewrite (exit_returns _ _ _ Hs Hall) in E.
    injection E as <-. simpl. rewrite lookup_remove_keys. by case_decide.
  - intros e self'. rewrite (exit_unfold _ _ _ Hs).
    intros (k & -> & Hk & Hnone)%delete_loop_raise_unbound;
      [|apply NoDup_elements].
    exists k. split; [done|]. split; [set_solver|done].
Qed.

(** X4: as long as no inserted name is one the regular expression rejects
    (the mutable environment included), every state reached from a new
    namespace keeps each recorded name bound and recorded in one scope set
    only, so that [__exit__] raises nothing but the [CompilerPanic] of an
    exit without a scope. *)
Theorem recorded_names_stay_bound fresh ops :
  Forall (λ k, Ident.re_match k = true) get_mutable_vars.*1 →
  Namespace_new = Return tt fresh →
  Forall matched_op ops →
  (∀ top k, top ∈ _scopes (foldl step fresh ops) → k ∈ top →
            is_Some (dict (foldl step fresh ops) !! k)) ∧
  (∀ k, (occurrences k (_scopes (foldl step fresh ops)) ≤ 1)%nat) ∧
  ∀ e self', __exit__ (foldl step fresh ops) = Raise e self' →
             ∃ msg, e = CompilerPanic msg.
Proof.
  intros Hmut Hnew Hops.
  destruct (inv_matched_run fresh ops Hmut Hnew Hops) as [[Hb Hd] Hexit].
  done.
Qed.

Lemma update_app l1 l2 self :
  update (l1 ++ l2) self = (update l1 ;; update l2) self.
Proof.
  revert self. induction l1 as [|kv l1 IH]; intros self; [done|].
  change ((kv :: l1) ++ l2) with (kv :: (l1 ++ l2)).
  unfold bind. rewrite !update_cons.
  destruct (__setitem__ kv.1 kv.2 self) as [u s|e s]; [|done].
  rewrite IH. done.
Qed.

Lemma new_as_update :
  Namespace_new = update bootstrap_items {| dict := ∅; _scopes := [] |}.
Proof.
  unfold Namespace_new, bootstrap_items. rewrite init_unfold, !update_app.
  unfold bind. simpl.
  destruct (update get_types _) as [u s|e s]; [|done].
  by rewrite update_app.
Qed.

(** With no scope open an insertion raises nothing but the builtin
    collision. *)
Lemma setitem_depth0_raise attr obj self e self' :
  _scopes self = [] →
  __setitem__ attr obj self = Raise e self' →
  Ident.re_match attr = true ∧ is_Some (dict self !! attr) ∧
  e = NamespaceCollision
        ("Cannot assign to '" +:+ attr +:+ "', it is a builtin").
Proof.
  intros Hs. destruct (Ident.re_match attr) eqn:Hre.
  - destruct (dict self !! attr) as [prior|] eqn:E.
    + rewrite (setitem_collision _ _ _ _ Hre E).
      rewrite bool_decide_eq_true_2 by (by apply scoped_names_no_scope).
      intros [= <- _]. by eauto.
    + by rewrite setitem_unbound by auto.
  - by rewrite setitem_unmatched.
Qed.

Lemma update_depth0_raise l self e self' :
  _scopes self = [] →
  update l self = Raise e self' →
  ∃ k, k ∈ l.*1 ∧
       e = NamespaceCollision
             ("Cannot assign to '" +:+ k +:+ "', it is a builtin").
Proof.
  revert self. induction l as [|[k v] l IH]; intros self Hs; [done|].
  rewrite update_cons. simpl.
  destruct (__setitem__ k v self) as [u s|e0 s] eqn:E.
  - apply setitem_returns in E as ->. intros (k' & Hk' & ->)%IH.
    + exists k'. split; [set_solver|done].
    + simpl. by rewrite Hs.
  - intros [= -> ->]. apply setitem_depth0_raise in E as (_ & _ & ->); [|done].
    exists k. split; [set_solver|done].
Qed.

Lemma update_depth0_returns_iff l self :
  _scopes self = [] →
  (∃ self', update l self = Return tt self') ↔
  NoDup (filter (λ k, Ident.re_match k = true) l.*1) ∧
  ∀ k, k ∈ l.*1 → Ident.re_match k = true → dict self !! k = None.
Proof.
  revert self. induction l as [|[k v] l IH]; intros self Hs.
  - split; [|by eexists]. intros _. split; [constructor|].
    intros k Hk. by apply not_elem_of_nil in Hk.
  - rewrite update_cons. simpl.
    assert (_scopes (bound k v self) = []) as Hs' by (simpl; by rewrite Hs).
    destruct (Ident.re_match k) eqn:Hre.
    + rewrite filter_cons_True by done.
      destruct (dict self !! k) as [prior|] eqn:E.
      * rewrite (setitem_collision _ _ _ _ Hre E). split.
        -- by intros [? ?].
        -- intros [_ Hall]. specialize (Hall k). rewrite E in Hall.
           discriminate Hall; [set_solver|done].
      * rewrite setitem_unbound by auto. rewrite (IH _ Hs'). simpl.
        rewrite NoDup_cons, list_elem_of_filter. split.
        -- intros [Hnd Hall]. split_and!; [|done|].
           ++ intros [_ Hk]. specialize (Hall k Hk Hre).
              by rewrite lookup_insert_eq in Hall.
           ++ intros k' [->|Hk']%elem_of_cons Hre'; [done|].
              specialize (Hall k' Hk' Hre').
              destruct (decide (k = k')) as [->|Hne].
              ** by rewrite lookup_insert_eq in Hall.
              ** by rewrite lookup_insert_ne in Hall.
        -- intros [[Hk Hnd] Hall]. split; [done|].
           intros k' Hk' Hre'. rewrite lookup_insert_ne.
           ++ apply Hall; [set_solver|done].
           ++ intros ->. by apply Hk.
    + rewrite filter_cons_False by (by rewrite Hre).
      rewrite setitem_unmatched by done. rewrite (IH _ Hs'). simpl.
      split; intros [Hnd Hall]; (split; [done|]).
      * intros k' [->|Hk']%elem_of_cons Hre'; [congruence|].
        specialize (Hall k' Hk' Hre').
        rewrite lookup_insert_ne in Hall; [done|]. intros ->. congruence.
      * intros k' Hk' Hre'. rewrite lookup_insert_ne.
        -- apply Hall; [set_solver|done].
        -- intros ->. congruence.
Qed.

(** X5: a bootstrap binding of a name the regular expression accepts is
    never lost and never replaced.  After any calls whatever, resets
    included, the name is bound to the definition the constructor gave it,
    and inserting it raises the builtin [NamespaceCollision]. *)
Theorem bootstrap_bindings_are_protected fresh k d ops :
  Namespace_new = Return tt fresh →
  dict fresh !! k = Some d →
  Ident.re_match k = true →
  dict (foldl step fresh ops) !! k = Some d ∧
  ∀ obj,
    __setitem__ k obj (foldl step fresh ops) =
      Raise (NamespaceCollision
               ("Cannot assign to '" +:+ k +:+ "', it is a builtin"))
            (foldl step fresh ops).
Proof.
  intros Hnew Hd Hre.
  assert (permanent k d fresh) as Hfresh.
  { split; [done|]. apply scoped_names_no_scope.
    apply new_returns in Hnew. by subst fresh. }
  assert (∀ s, permanent k d s → permanent k d (foldl step s ops)) as Hrun.
  { induction ops as [|o ops IH]; intros s Hp; [done|].
    simpl. apply IH. destruct (is_reset o) eqn:Ho.
    - destruct o; try discriminate Ho. simpl.
      by rewrite clear_eq_new, Hnew.
    - by apply (permanent_run k d s [o]); [| |repeat constructor]. }
  destruct (Hrun fresh Hfresh) as [Hbound Hout]. split; [done|].
  intros obj. rewrite (setitem_collision _ _ _ _ Hre Hbound).
  by rewrite bool_decide_eq_true_2.
Qed.

(** X6: the constructor returns exactly when no name that the regular
    expression accepts occurs twice in the three bootstrap mappings taken
    together; reserved words and opcode names are no obstacle.  When it
    raises, it raises the builtin [NamespaceCollision] for one of their
    names. *)
Theorem construction_succeeds_iff_distinct :
  ((∃ fresh, Namespace_new = Return tt fresh) ↔
   NoDup (filter (λ k, Ident.re_match k = true) bootstrap_items.*1)) ∧
  ∀ e self, Namespace_new = Raise e self →
    ∃ k, k ∈ bootstrap_items.*1 ∧
         e = NamespaceCollision
               ("Cannot assign to '" +:+ k +:+ "', it is a builtin").
Proof.
  rewrite new_as_update. split.
  - rewrite update_depth0_returns_iff by done. simpl. split; [by intros [? _]|].
    intros Hnd. split; [done|]. intros k _ _. apply lookup_empty.
  - intros e self. by apply update_depth0_raise.
Qed.

(** X7: [update] is not all or nothing.  It binds the entries in order and
    stops at the first one that is refused: the exception of that insertion
    is raised, the entries before it stay bound, and the entries after it
    are not inserted. *)
Theorem update_stops_at_first_refusal l1 k v l2 self self1 e :
  update l1 self = Return tt self1 →
  __setitem__ k v self1 = Raise e self1 →
  update (l1 ++ (k, v) :: l2) self = Raise e self1 ∧
  dict self1 = dict_update (dict self) l1.
Proof.
  intros H1 Hk. split.
  - rewrite update_app. unfold bind. rewrite H1, update_cons. simpl.
    by rewrite Hk.
  - apply update_returns in H1 as ->. apply dict_bound_all.
Qed.

Lemma remove_keys_empty (m : gmap string Obj) : remove_keys ∅ m = m.
Proof.
  apply map_eq. intros k. rewrite lookup_remove_keys.
  case_decide as H; [set_solver|done].
Qed.

Lemma remove_keys_insert_fresh attr obj top (m : gmap string Obj) :
  m !! attr = None →
  remove_keys ({[attr]} ∪ top) (<[attr := obj]> m) = remove_keys top m.
Proof.
  intros Hnone. apply map_eq. intros k. rewrite !lookup_remove_keys.
  destruct (decide (k = attr)) as [->|Hne].
  - rewrite Hnone. repeat case_decide; try done; exfalso; set_solver.
  - rewrite lookup_insert_ne by done.
    repeat case_decide; try done; exfalso; set_solver.
Qed.

Lemma setitem_raise_user_facing attr obj self e self' :
  __setitem__ attr obj self = Raise e self' → user_facing e = true.
Proof.
  rewrite setitem_unfold. unfold validate_assignment. run_monad.
  destruct (Ident.re_match attr); simpl; [|done].
  destruct (dict self !! attr).
  - case_bool_decide; by intros [= <- _].
  - destruct (_scopes self); [done|].
    destruct (is_reserved attr); [|done]. by intros [= <- _].
Qed.

Lemma update_raise_user_facing l self e self' :
  update l self = Raise e self' → user_facing e = true.
Proof.
  revert self. induction l as [|kv l IH]; intros self; [done|].
  rewrite update_cons.
  destruct (__setitem__ kv.1 kv.2 self) as [u s|e0 s] eqn:E; [apply IH|].
  intros [= <- _]. by eapply setitem_raise_user_facing.
Qed.

(** What a run of insertions of accepted names keeps true inside a scope:
    the names of the innermost set are bound, and the dictionary without
    them is what it was. *)
Lemma update_in_scope l self rest top D :
  Forall (λ k, Ident.re_match k = true) l.*1 →
  _scopes self = rest ++ [top] →
  (∀ k, k ∈ top → is_Some (dict self !! k)) →
  remove_keys top (dict self) = D →
  ∃ top',
    _scopes (state_of (update l self)) = rest ++ [top'] ∧
    (∀ k, k ∈ top' → is_Some (dict (state_of (update l self)) !! k)) ∧
    remove_keys top' (dict (state_of (update l self))) = D.
Proof.
  revert self top. induction l as [|[k v] l IH]; intros self top Hall Hs Hb HD.
  - by exists top.
  - simpl in Hall. apply Forall_cons in Hall as [Hre Hall].
    rewrite update_cons. simpl.
    destruct (__setitem__ k v self) as [u s|e s] eqn:E.
    + assert (dict self !! k = None) as Hnone.
      { destruct (dict self !! k) as [prior|] eqn:Ek; [|done].
        by rewrite (setitem_collision _ _ _ _ Hre Ek) in E. }
      apply setitem_returns in E as ->.
      apply (IH _ ({[k]} ∪ top)); [done| | |].
      * simpl. by rewrite Hs, record_in_scope_snoc.
      * intros k' Hk'. simpl. destruct (decide (k = k')) as [->|Hne].
        -- rewrite lookup_insert_eq. by eexists.
        -- rewrite lookup_insert_ne by done. apply Hb. set_solver.
      * simpl. by rewrite remove_keys_insert_fresh.
    + destruct (setitem_state k v self) as [Hst|Hst]; [|congruence].
      rewrite E in Hst. simpl in Hst. subst s. by exists top.
Qed.

(** X8: everything added inside [with namespace.enter_scope():] is removed
    when the statement ends, and nothing else is.  If [enter_scope] returns
    and the names involved are ones the regular expression accepts, a body
    that inserts entries leaves the namespace exactly as it was before the
    statement, whether every insertion succeeded or one of them raised; the
    statement returns or raises as the body does. *)
Theorem with_scope_restores l self self1 :
  enter_scope self = Return tt self1 →
  Forall (λ k, Ident.re_match k = true) get_mutable_vars.*1 →
  Forall (λ k, Ident.re_match k = true) l.*1 →
  with_scope (update l) self =
    match update l self1 with
    | Return v _ => Return v self
    | Raise e _ => Raise e self
    end.
Proof.
  intros Henter Hmut Hl.
  assert (∃ top1, _scopes self1 = _scopes self ++ [top1] ∧
                  (∀ k, k ∈ top1 → is_Some (dict self1 !! k)) ∧
                  remove_keys top1 (dict self1) = dict self)
    as (top1 & Hs1 & Hb1 & HD1).
  { destruct (_scopes self) as [|top scopes] eqn:Hs.
    - rewrite enter_scope_first in Henter by done.
      destruct (update_in_scope get_mutable_vars
                  {| dict := dict self; _scopes := [∅] |} [] ∅ (dict self))
        as (top1 & H1 & H2 & H3); try done.
      + apply remove_keys_empty.
      + rewrite Henter in H1, H2, H3. by exists top1.
    - rewrite enter_scope_nested in Henter by (by rewrite Hs).
      injection Henter as <-. exists ∅. simpl. rewrite Hs.
      split_and!; [done|set_solver|apply remove_keys_empty]. }
  destruct (update_in_scope l self1 _ top1 (dict self) Hl Hs1 Hb1 HD1)
    as (top2 & Hs2 & Hb2 & HD2).
  unfold with_scope, bind. rewrite Henter.
  assert (__enter__ self1 = Return tt self1) as ->.
  { unfold __enter__. run_monad. rewrite Hs1.
    by destruct (_scopes self). }
  destruct (update l self1) as [v s2|e s2]; simpl in Hs2, Hb2, HD2;
    rewrite (exit_returns _ _ _ Hs2 Hb2), HD2; unfold ret, raise;
    by destruct self.
Qed.

(** X9: when the [enter_scope] of a [with] statement raises, [__exit__] is
    not run.  This happens only on the first entry, the exception is one
    meant for the user, and the namespace is left with one scope open. *)
Theorem failed_entry_leaves_scope_open {A : Type} (body : M A) self e self1 :
  enter_scope self = Raise e self1 →
  with_scope body self = Raise e self1 ∧
  _scopes self = [] ∧
  (∃ top, _scopes self1 = [top]) ∧
  user_facing e = true.
Proof.
  intros Henter.
  assert (_scopes self = []) as Hs.
  { destruct (_scopes self) as [|top scopes] eqn:Hs; [done|].
    by rewrite enter_scope_nested in Henter by (by rewrite Hs). }
  split_and!; try done.
  - unfold with_scope, bind. by rewrite Henter.
  - rewrite enter_scope_first in Henter by done.
    destruct (update_scopes_snoc get_mutable_vars
                {| dict := dict self; _scopes := [∅] |} [] ∅ eq_refl)
      as [top Htop].
    rewrite Henter in Htop. by exists top.
  - rewrite enter_scope_first in Henter by done.
    by eapply update_raise_user_facing.
Qed.

Lemma update_state_lookup l self k d :
  dict (state_of (update l self)) !! k = Some d →
  (k, d) ∈ l ∨ dict self !! k = Some d.
Proof.
  revert self. induction l as [|[k' v] l IH]; intros self; [by right|].
  rewrite update_cons. simpl.
  destruct (__setitem__ k' v self) as [u s|e s] eqn:E.
  - apply setitem_returns in E as ->. intros [H|H]%IH; [left; set_solver|].
    simpl in H. destruct (decide (k' = k)) as [->|Hne].
    + rewrite lookup_insert_eq in H. injection H as ->. left. set_solver.
    + rewrite lookup_insert_ne in H by done. by right.
  - destruct (setitem_state k' v self) as [Hst|Hst]; [|congruence].
    rewrite E in Hst. simpl in Hst. subst s. by right.
Qed.

(** X10: in whatever state [clear] is called, and whether or not it
    returns, it leaves no scope open and no binding but entries of the
    bootstrap mappings; a scope exit that was still pending then raises
    [CompilerPanic] and changes nothing. *)
Theorem clear_forgets_scopes_and_bindings self :
  _scopes (state_of (clear self)) = [] ∧
  (∀ k d, dict (state_of (clear self)) !! k = Some d →
          (k, d) ∈ bootstrap_items) ∧
  __exit__ (state_of (clear self)) =
    Raise (CompilerPanic "Bad use of namespace as a context manager")
          (state_of (clear self)).
Proof.
  assert (_scopes (state_of (clear self)) = []) as Hs
    by apply init_scopes_nil.
  split_and!; [done| |by apply exit_no_scope].
  intros k d. rewrite clear_eq_new, new_as_update.
  intros [H|H]%update_state_lookup; [done|].
  simpl in H. by rewrite lookup_empty in H.
Qed.

(** *** The module global and the identity of objects *)

(** X11: [get_namespace] constructs a namespace when the module global is
    not yet defined, and from then on returns that same object whatever has
    been done to it in between: nothing is constructed again and nothing is
    reset.  If the construction raises, the exception comes through and the
    global stays undefined. *)
Theorem get_namespace_is_a_singleton w :
  _namespace w = None →
  match Namespace_new with
  | Return _ fresh =>
      ∃ w1,
        get_namespace w = (w1, inr (length (heap w))) ∧
        heap w1 !! length (heap w) = Some fresh ∧
        ∀ (A : Type) (m : M A) w2 r,
          call (length (heap w)) m w1 = Some (w2, r) →
          get_namespace w2 = (w2, inr (length (heap w))) ∧
          heap w2 !! length (heap w) = Some (state_of (m fresh))
  | Raise e _ =>
      get_namespace w = (w, inl e) ∧ _namespace (get_namespace w).1 = None
  end.
Proof.
  intros Hw. unfold get_namespace, Namespace_call. rewrite Hw.
  destruct Namespace_new as [u fresh|e s]; [|done].
  eexists. split; [done|]. simpl.
  assert ((heap w ++ [fresh]) !! length (heap w) = Some fresh) as Hfresh.
  { rewrite lookup_app_r by done. by rewrite Nat.sub_diag. }
  split; [done|]. intros A m w2 r. unfold call. simpl. rewrite Hfresh.
  assert (<[length (heap w) := state_of (m fresh)]> (heap w ++ [fresh])
            !! length (heap w) = Some (state_of (m fresh))) as Hupd.
  { apply list_lookup_insert_eq. rewrite length_app. simpl. lia. }
  destruct (m fresh); intros [= <- _]; by simpl.
Qed.

(** X12: equality of namespaces is identity.  Two namespaces constructed one
    after the other hold the same bindings and are not equal; a namespace is
    equal to itself. *)
Theorem namespaces_equal_only_to_themselves w fresh :
  Namespace_new = Return tt fresh →
  ∃ w1 w2 ns ns',
    Namespace_call w = (w1, inr ns) ∧
    Namespace_call w1 = (w2, inr ns') ∧
    heap w2 !! ns = Some fresh ∧
    heap w2 !! ns' = Some fresh ∧
    __eq__ ns ns' = false ∧
    __eq__ ns ns = true ∧
    __eq__ ns' ns' = true.
Proof.
  intros Hnew. unfold Namespace_call. rewrite Hnew. simpl.
  eexists _, _, _, _. split; [done|]. split; [done|]. simpl.
  rewrite length_app. simpl. unfold __eq__. split_and!.
  - rewrite lookup_app_l by (rewrite length_app; simpl; lia).
    rewrite lookup_app_r by done. by rewrite Nat.sub_diag.
  - rewrite lookup_app_r by (rewrite length_app; simpl; lia).
    rewrite length_app. simpl.
    by replace (length (heap w) + 1 - (length (heap w) + 1)) with 0 by lia.
  - apply Nat.eqb_neq. lia.
  - apply Nat.eqb_refl.
  - apply Nat.eqb_refl.
Qed.

(** *** Names *)

Lemma tail_class_grammar c :
  Ident.tail_class c
  = (Ascii.eqb c "_" || Ident.is_letter c || Ident.is_digit c).
Proof.
  unfold Ident.tail_class, Ident.is_letter, Ident.is_digit.
  destruct (Ascii.eqb c "_"), (Ident.in_range "a" "z" c),
    (Ident.in_range "A" "Z" c), (Ident.in_range "0" "9" c); done.
Qed.

Lemma append_newline_single s c :
  s +:+ String Ident.newline "" = String c "" → s = "" ∧ c = Ident.newline.
Proof.
  destruct s as [|a s]; simpl.
  - by intros [= <-].
  - intros [= _ H]. by destruct s.
Qed.

Lemma match_tail_iff s :
  Ident.match_tail s = true ↔
  Ident.all_chars
    (λ c, Ascii.eqb c "_" || Ident.is_letter c || Ident.is_digit c) s = true ∨
  ∃ s', s = s' +:+ String Ident.newline "" ∧
        Ident.all_chars
          (λ c, Ascii.eqb c "_" || Ident.is_letter c || Ident.is_digit c) s'
        = true.
Proof.
  induction s as [|c s IH]; [by split; [left|]|].
  destruct s as [|c' r].
  - simpl. rewrite tail_class_grammar, andb_true_r. split.
    + intros [H|H]%orb_prop; [by left|right].
      apply Ascii.eqb_eq in H as ->. by exists "".
    + intros [->|(s' & Hs' & _)]; [done|].
      symmetry in Hs'. apply append_newline_single in Hs' as [_ ->].
      apply orb_true_r.
  - change (Ident.match_tail (String c (String c' r)))
      with (Ident.tail_class c && Ident.match_tail (String c' r)).
    rewrite andb_true_iff, IH, tail_class_grammar. split.
    + intros [Hc [H|(s' & Hs' & H)]].
      * left. simpl in *. by rewrite Hc.
      * right. exists (String c s'). simpl. by rewrite Hs', Hc.
    + intros [H|(s' & Hs' & H)].
      * simpl in H. apply andb_prop in H as [Hc H]. split; [done|by left].
      * destruct s' as [|a s'']; [discriminate Hs'|].
        simpl in Hs', H. injection Hs' as <- Hs'.
        apply andb_prop in H as [Hc H]. split; [done|].
        right. by exists s''.
Qed.

(** X13: the regular expression of [validate_assignment] accepts the
    identifiers (a letter or underscore followed by letters, digits and
    underscores), and besides them exactly the identifiers followed by one
    newline; the empty name and every other name are rejected. *)
Theorem re_match_accepts name :
  Ident.re_match name = true ↔
  Ident.grammar name = true ∨
  ∃ s, name = s +:+ String Ident.newline "" ∧ Ident.grammar s = true.
Proof.
  destruct name as [|c rest].
  - split; [done|]. intros [H|(s & Hs & H)]; [done|].
    by destruct s.
  - simpl. rewrite andb_true_iff, match_tail_iff.
    assert (Ident.head_class c = (Ascii.eqb c "_" || Ident.is_letter c))
      as -> by (unfold Ident.head_class, Ident.is_letter;
                by destruct (Ascii.eqb c "_"), (Ident.in_range "a" "z" c)).
    split.
    + intros [Hc [H|(s' & -> & H)]].
      * left. by rewrite Hc.
      * right. exists (String c s'). simpl. by rewrite Hc.
    + intros [H|(s & Hs & H)].
      * apply andb_prop in H as [Hc H]. split; [done|by left].
      * destruct s as [|a s']; [done|]. simpl in Hs, H.
        injection Hs as <- ->. apply andb_prop in H as [Hc H].
        split; [done|]. right. by exists s'.
Qed.

Lemma lower_lower_char c :
  Ident.lower_char (Ident.lower_char c) = Ident.lower_char c.
Proof. by destruct c as [[] [] [] [] [] [] [] []]. Qed.

Lemma upper_upper_char c :
  Ident.upper_char (Ident.upper_char c) = Ident.upper_char c.
Proof. by destruct c as [[] [] [] [] [] [] [] []]. Qed.

Lemma lower_upper_char c :
  Ident.lower_char (Ident.upper_char c) = Ident.lower_char c.
Proof. by destruct c as [[] [] [] [] [] [] [] []]. Qed.

Lemma upper_lower_char c :
  Ident.upper_char (Ident.lower_char c) = Ident.upper_char c.
Proof. by destruct c as [[] [] [] [] [] [] [] []]. Qed.

Lemma map_chars_compose f g h s :
  (∀ c, f (g c) = h c) →
  Ident.map_chars f (Ident.map_chars g s) = Ident.map_chars h s.
Proof.
  intros H. induction s as [|c s IH]; simpl; [done|]. by rewrite H, IH.
Qed.

(** X14: the reserved-word test does not depend on letter case: a name the
    regular expression accepts is reserved exactly when its lowercased form
    is, and exactly when its uppercased form is. *)
Theorem reserved_test_ignores_case name :
  Ident.re_match name = true →
  is_reserved (Ident.lower name) = is_reserved name ∧
  is_reserved (Ident.upper name) = is_reserved name.
Proof.
  intros _. unfold is_reserved, Ident.lower, Ident.upper.
  rewrite (map_chars_compose _ _ _ _ lower_lower_char),
    (map_chars_compose _ _ _ _ upper_lower_char),
    (map_chars_compose _ _ _ _ lower_upper_char),
    (map_chars_compose _ _ _ _ upper_upper_char).
  done.
Qed.

Lemma keywords_are_lowercase_identifiers :
  Forall (λ k, Ident.re_match k = true ∧ Ident.lower k = k) RESERVED_KEYWORDS.
Proof.
  unfold RESERVED_KEYWORDS.
  repeat (apply Forall_cons; split; [split; reflexivity|]).
  constructor.
Qed.

(** X15: every entry of [RESERVED_KEYWORDS] does its work: each keyword, as
    long as it is not bound, is refused in any open scope with the
    reserved-keyword [StructureException], whatever the opcode table holds,
    and the object is unchanged. *)
Theorem every_keyword_is_refused_in_scope k obj self :
  k ∈ RESERVED_KEYWORDS →
  _scopes self ≠ [] →
  dict self !! k = None →
  __setitem__ k obj self =
    Raise (StructureException ("'" +:+ k +:+ "' is a reserved keyword")) self.
Proof.
  intros Hk Hs Hnone.
  pose proof keywords_are_lowercase_identifiers as Hall.
  rewrite Forall_forall in Hall. destruct (Hall k Hk) as [Hre Hlow].
  apply setitem_reserved; [done|done|done|].
  unfold is_reserved. rewrite Hlow. by rewrite bool_decide_eq_true_2.
Qed.

(** X16: a binding made with no scope open is permanent.  An unbound name
    that the regular expression accepts is bound by such an insertion, and
    from then on, through insertions, lookups, scope entries and scope exits
    in any number and order, it stays bound to that definition and every
    new insertion of it raises the builtin [NamespaceCollision]; only a
    reset removes it. *)
Theorem depth0_binding_is_permanent name d self ops :
  Ident.re_match name = true →
  dict self !! name = None →
  _scopes self = [] →
  Forall (λ o, is_reset o = false) ops →
  __setitem__ name d self =
    Return tt {| dict := <[name := d]> (dict self); _scopes := [] |} ∧
  dict (foldl step (state_of (__setitem__ name d self)) ops) !! name = Some d ∧
  ∀ obj,
    __setitem__ name obj (foldl step (state_of (__setitem__ name d self)) ops)
    = Raise (NamespaceCollision
               ("Cannot assign to '" +:+ name +:+ "', it is a builtin"))
            (foldl step (state_of (__setitem__ name d self)) ops).
Proof.
  intros Hre Hnone Hs Hops.
  rewrite setitem_unbound by auto. unfold bound. rewrite Hs. simpl.
  split; [done|].
  destruct (permanent_run name d
              {| dict := <[name := d]> (dict self); _scopes := [] |} ops)
    as [Hbound Hout]; [done| |done|].
  { split; [apply lookup_insert_eq|by apply scoped_names_no_scope]. }
  split; [done|]. intros obj.
  rewrite (setitem_collision _ _ _ _ Hre Hbound).
  by rewrite bool_decide_eq_true_2.
Qed.

End Namespace.

Arguments Return {Obj A} v self.
Arguments Raise {Obj A} e self.
Arguments state_of {Obj A} o.
Arguments dict {Obj} self : rename.
Arguments _scopes {Obj} self : rename.
Arguments bound {Obj} attr obj self.
Arguments scoped_names {Obj} self.
Arguments scopes_bound {Obj} self.
Arguments __getitem__ {Obj} key self.
Arguments __exit__ {Obj} self.
Arguments Insert {Obj} name d.
Arguments Lookup {Obj} name.
Arguments EnterScope {Obj}.
Arguments ExitScope {Obj}.
Arguments Reset {Obj}.

(** ** Worked examples in the sample environment *)

Module Examples.

Abbreviation new :=
  (Namespace_new string Sample.obj_str Sample.OPCODES Sample.get_types
     Sample.get_constant_vars Sample.get_builtin_functions).
Abbreviation fresh := (state_of new).
Abbreviation run :=
  (foldl (step string Sample.obj_str Sample.OPCODES Sample.get_types
            Sample.get_constant_vars Sample.get_builtin_functions
            Sample.get_mutable_vars)).
Abbreviation setitem := (__setitem__ string Sample.obj_str Sample.OPCODES).
Abbreviation enter :=
  (enter_scope string Sample.obj_str Sample.OPCODES Sample.get_mutable_vars).
Abbreviation sample_reachable :=
  (reachable string Sample.obj_str Sample.OPCODES Sample.get_types
     Sample.get_constant_vars Sample.get_builtin_functions
     Sample.get_mutable_vars).

Lemma new_returns_fresh : new = Return tt fresh.
Proof. vm_compute. reflexivity. Qed.

Lemma run_reachable ops : sample_reachable (run fresh ops).
Proof. apply reachable_run, reachable_new, new_returns_fresh. Qed.

(** *** Names *)

(** What the regular expression accepts: identifiers, and also an
    identifier followed by one newline, which the grammar does not allow. *)
Example re_match_examples :
  Ident.re_match "total_supply" = true ∧
  Ident.re_match "_x1" = true ∧
  Ident.re_match "" = false ∧
  Ident.re_match "1abc" = false ∧
  Ident.re_match "foo-bar" = false ∧
  Ident.re_match (String "a" (String Ident.newline "")) = true ∧
  Ident.grammar (String "a" (String Ident.newline "")) = false.
Proof. repeat split. Qed.

Example case_mapping_examples :
  Ident.lower "Balance" = "balance" ∧ Ident.upper "selfdestruct" = "SELFDESTRUCT".
Proof. split; reflexivity. Qed.

(** *** Insertion and lookup *)

(** [x], inserted in the outermost scope of a new namespace, is found. *)
Lemma insert_then_lookup_witness :
  Ident.grammar "x" = true ∧
  ∃ self',
    setitem "x" "variable x" (run fresh [EnterScope]) = Return tt self' ∧
    __getitem__ "x" self' = Return "variable x" self'.
Proof.
  split; [reflexivity|].
  apply (insert_then_lookup string Sample.obj_str Sample.OPCODES
           "x" "variable x" (run fresh [EnterScope]));
    vm_compute; reflexivity.
Defined.

(** ["if"] on a new namespace, before any scope is opened, and in its
    outermost scope. *)
Lemma reserved_name_witness :
  is_reserved Sample.OPCODES "if" = true ∧
  setitem "if" "statement" (run fresh [EnterScope]) =
    Raise (StructureException "'if' is a reserved keyword")
          (run fresh [EnterScope]) ∧
  setitem "if" "statement" fresh =
    Return tt {| dict := <["if" := "statement"]> (dict fresh); _scopes := [] |} ∧
  dict (run (state_of (setitem "if" "statement" fresh))
            [EnterScope; Insert "x" "variable x"; Insert "if" "variable";
             ExitScope; EnterScope]) !! "if" = Some "statement".
Proof.
  split; [vm_compute; reflexivity|]. split.
  - apply (reserved_name_scoped_or_bootstrap string Sample.obj_str
             Sample.OPCODES Sample.get_types Sample.get_constant_vars
             Sample.get_builtin_functions Sample.get_mutable_vars
             "if" "statement" (run fresh [EnterScope]));
      try (vm_compute; reflexivity).
    vm_compute. discriminate.
  - destruct (reserved_name_scoped_or_bootstrap string Sample.obj_str
                Sample.OPCODES Sample.get_types Sample.get_constant_vars
                Sample.get_builtin_functions Sample.get_mutable_vars
                "if" "statement" fresh) as [_ Hboot];
      try (vm_compute; reflexivity).
    destruct Hboot as [Hret Hperm]; [vm_compute; reflexivity|].
    split; [exact Hret|]. apply Hperm. repeat constructor.
Defined.

(** ["if"] and ["external"] are refused in a scope and accepted before any
    scope is opened; so is ["Balance"], reserved as [balance] and as the
    opcode [BALANCE]. *)
Example reserved_words_in_scope :
  setitem "if" "d" (run fresh [EnterScope]) =
    Raise (StructureException "'if' is a reserved keyword")
          (run fresh [EnterScope]) ∧
  setitem "external" "d" (run fresh [EnterScope]) =
    Raise (StructureException "'external' is a reserved keyword")
          (run fresh [EnterScope]) ∧
  setitem "Balance" "d" (run fresh [EnterScope]) =
    Raise (StructureException "'Balance' is a reserved keyword")
          (run fresh [EnterScope]).
Proof. vm_compute. auto. Qed.

Example reserved_words_at_bootstrap :
  setitem "if" "d" fresh = Return tt (bound "if" "d" fresh) ∧
  setitem "external" "d" fresh = Return tt (bound "external" "d" fresh) ∧
  _scopes (bound "if" "d" fresh) = [].
Proof. vm_compute. auto. Qed.

(** *** Scopes *)

(** A new namespace has no scope to leave. *)
Lemma exit_without_scope_witness :
  _scopes fresh = [] ∧
  __exit__ fresh =
    Raise (CompilerPanic "Bad use of namespace as a context manager") fresh ∧
  (∀ msg, user_facing (CompilerPanic msg) = false) ∧
  ∀ msg msg', CompilerPanic msg ≠ StructureException msg' ∧
              CompilerPanic msg ≠ NamespaceCollision msg' ∧
              CompilerPanic msg ≠ UndeclaredDefinition msg'.
Proof.
  split; [vm_compute; reflexivity|].
  apply (exit_without_scope_panics string fresh). vm_compute. reflexivity.
Defined.

(** [clear] called with two scopes open and [x] bound. *)
Lemma clear_restores_fresh_witness :
  ∃ s,
    new = Return tt s ∧
    clear string Sample.obj_str Sample.OPCODES Sample.get_types
      Sample.get_constant_vars Sample.get_builtin_functions
      (run fresh [EnterScope; Insert "x" "variable x"; EnterScope])
    = Return tt s ∧
    _scopes s = [] ∧
    dict s = dict_update string ∅
               (bootstrap_items string Sample.get_types
                  Sample.get_constant_vars Sample.get_builtin_functions) ∧
    dom (dict s) =
      list_to_set
        (bootstrap_items string Sample.get_types Sample.get_constant_vars
           Sample.get_builtin_functions).*1 ∧
    ∀ k d, dict s !! k = Some d →
           (k, d) ∈ bootstrap_items string Sample.get_types
                      Sample.get_constant_vars Sample.get_builtin_functions.
Proof.
  apply (clear_restores_fresh string Sample.obj_str Sample.OPCODES
           Sample.get_types Sample.get_constant_vars
           Sample.get_builtin_functions Sample.get_mutable_vars).
  apply run_reachable.
Defined.

(** On a new namespace the first [enter_scope] binds [self] and records it
    in the scope it has pushed. *)
Lemma enter_scope_pushes_witness :
  ∃ self',
    enter fresh = Return tt self' ∧
    _scopes self' = [list_to_set Sample.get_mutable_vars.*1] ∧
    dict self' = dict_update string (dict fresh) Sample.get_mutable_vars ∧
    (∀ k d, (k, d) ∈ Sample.get_mutable_vars → dict self' !! k = Some d) ∧
    (∀ k, k ∉ Sample.get_mutable_vars.*1 → dict self' !! k = dict fresh !! k).
Proof.
  apply (enter_scope_pushes string Sample.obj_str Sample.OPCODES
           Sample.get_mutable_vars fresh).
  - vm_compute. reflexivity.
  - split.
    + apply NoDup_singleton.
    + apply Forall_singleton. vm_compute. auto.
Defined.

(** With [self] already bound by an insertion made before any scope was
    opened, the first [enter_scope] raises and binds no entry of the mutable
    environment. *)
Lemma enter_scope_refuses_bound_self :
  ¬ enter_scope_inserts_all string Sample.obj_str Sample.OPCODES
      Sample.get_mutable_vars (run fresh [Insert "self" "user variable"]).
Proof.
  intros (top & _ & Hfirst & _).
  destruct (Hfirst eq_refl "self" "contract self") as [Hself _].
  - apply list_elem_of_here.
  - vm_compute in Hself. discriminate Hself.
Qed.

Example enter_scope_collision :
  enter (run fresh [Insert "self" "user variable"]) =
    Raise (NamespaceCollision "Cannot assign to 'self', it is a builtin")
          {| dict := dict (run fresh [Insert "self" "user variable"]);
             _scopes := [∅] |}.
Proof. vm_compute. reflexivity. Qed.

(** *** What the unraised exception does to the scopes *)

(** C3 does not hold of the code once a name the regular expression rejects
    has been inserted.  Inserted in two nested scopes, ["1abc"] is recorded
    in both sets and unbound by the inner exit.  In the state reached the
    one open scope records ["self"], ["1abc"] and ["x"], and ["1abc"] is not
    bound: [__exit__] pops the set and then raises [KeyError] for ["1abc"]
    instead of completing, and so does the loop over the popped set in
    whatever order the set is walked. *)
Theorem exit_scope_after_malformed_insert :
  sample_reachable
    (run fresh [EnterScope; Insert "1abc" "outer"; EnterScope;
                Insert "1abc" "inner"; ExitScope; Insert "x" "variable x"]) ∧
  _scopes (run fresh [EnterScope; Insert "1abc" "outer"; EnterScope;
                      Insert "1abc" "inner"; ExitScope;
                      Insert "x" "variable x"])
    = [list_to_set ["self"; "1abc"; "x"]] ∧
  dict (run fresh [EnterScope; Insert "1abc" "outer"; EnterScope;
                   Insert "1abc" "inner"; ExitScope;
                   Insert "x" "variable x"]) !! "1abc" = None ∧
  (∃ self',
     __exit__ (run fresh [EnterScope; Insert "1abc" "outer"; EnterScope;
                          Insert "1abc" "inner"; ExitScope;
                          Insert "x" "variable x"])
       = Raise (KeyError "1abc") self' ∧
     _scopes self' = []) ∧
  ∀ keys,
    keys ≡ₚ elements (list_to_set ["self"; "1abc"; "x"] : gset string) →
    ∃ self',
      for_each string (__delitem__ string) keys
        {| dict := dict (run fresh [EnterScope; Insert "1abc" "outer";
                                    EnterScope; Insert "1abc" "inner";
                                    ExitScope; Insert "x" "variable x"]);
           _scopes := [] |}
        = Raise (KeyError "1abc") self' ∧
      _scopes self' = [].
Proof.
  split_and!.
  - apply run_reachable.
  - vm_compute. reflexivity.
  - vm_compute. reflexivity.
  - eexists. split; vm_compute; reflexivity.
  - intros keys Hperm.
    apply (delete_loop_raises_missing string Sample.obj_str keys
             {| dict := dict (run fresh [EnterScope; Insert "1abc" "outer";
                                         EnterScope; Insert "1abc" "inner";
                                         ExitScope; Insert "x" "variable x"]);
                _scopes := [] |} "1abc").
    + rewrite Hperm. apply NoDup_elements.
    + rewrite Hperm. apply elem_of_elements, elem_of_list_to_set.
      repeat first [apply list_elem_of_here | apply list_elem_of_further].
    + vm_compute. reflexivity.
    + intros k' Hk' Hne. rewrite Hperm in Hk'.
      apply elem_of_elements, elem_of_list_to_set in Hk'.
      repeat (apply elem_of_cons in Hk' as [->|Hk']).
      * vm_compute. by eexists.
      * by destruct Hne.
      * vm_compute. by eexists.
      * by apply not_elem_of_nil in Hk'.
Qed.

(** C10 does not hold of the code: after ["1abc"] has been inserted in two
    nested scopes and the inner one has been left, the reachable state
    records ["1abc"] in its open scope while the dictionary does not hold
    it, and the next exit fails with [KeyError]. *)
Theorem scope_name_unbound_after_inner_exit :
  sample_reachable
    (run fresh [EnterScope; Insert "1abc" "outer"; EnterScope;
                Insert "1abc" "inner"; ExitScope]) ∧
  "1abc" ∈ scoped_names
             (run fresh [EnterScope; Insert "1abc" "outer"; EnterScope;
                         Insert "1abc" "inner"; ExitScope]) ∧
  dict (run fresh [EnterScope; Insert "1abc" "outer"; EnterScope;
                   Insert "1abc" "inner"; ExitScope]) !! "1abc" = None ∧
  ¬ scopes_bound
      (run fresh [EnterScope; Insert "1abc" "outer"; EnterScope;
                  Insert "1abc" "inner"; ExitScope]) ∧
  ∃ self',
    __exit__ (run fresh [EnterScope; Insert "1abc" "outer"; EnterScope;
                         Insert "1abc" "inner"; ExitScope])
    = Raise (KeyError "1abc") self'.
Proof.
  assert ("1abc" ∈ scoped_names
            (run fresh [EnterScope; Insert "1abc" "outer"; EnterScope;
                        Insert "1abc" "inner"; ExitScope])) as Hin.
  { eassert (scoped_names _ = _) as -> by (vm_compute; reflexivity).
    repeat first [apply list_elem_of_here | apply list_elem_of_further]. }
  assert (dict (run fresh [EnterScope; Insert "1abc" "outer"; EnterScope;
                           Insert "1abc" "inner"; ExitScope]) !! "1abc" = None)
    as Hnone by (vm_compute; reflexivity).
  split_and!.
  - apply run_reachable.
  - exact Hin.
  - exact Hnone.
  - intros Hb. apply elem_of_scoped_names in Hin as (top & Htop & Hk).
    destruct (Hb top "1abc" Htop Hk) as [d Hd]. congruence.
  - eexists. vm_compute. reflexivity.
Qed.

(** The same calls with the identifier ["abc"] in place of ["1abc"]: the
    second insertion is refused, and both exits return. *)
Example nested_scopes_with_identifier :
  setitem "abc" "inner"
    (run fresh [EnterScope; Insert "abc" "outer"; EnterScope])
  = Raise (NamespaceCollision "'abc' has already been declared as a outer")
          (run fresh [EnterScope; Insert "abc" "outer"; EnterScope]) ∧
  run fresh [EnterScope; Insert "abc" "outer"; EnterScope;
             Insert "abc" "inner"; ExitScope; ExitScope] = fresh.
Proof. split; vm_compute; reflexivity. Qed.

(** A builtin cannot be rebound: the call raises and changes nothing. *)
Example builtin_collision :
  setitem "floor" "variable" (run fresh [EnterScope]) =
    Raise (NamespaceCollision "Cannot assign to 'floor', it is a builtin")
          (run fresh [EnterScope]).
Proof. vm_compute. reflexivity. Qed.

(** [x] is found inside its scope and is undeclared after the scope. *)
Example scoped_lookup :
  __getitem__ "x" (run fresh [EnterScope; Insert "x" "IntDef"])
    = Return "IntDef" (run fresh [EnterScope; Insert "x" "IntDef"]) ∧
  __getitem__ "x" (run fresh [EnterScope; Insert "x" "IntDef"; ExitScope])
    = Raise (UndeclaredDefinition "'x' has not been declared") fresh.
Proof. split; vm_compute; reflexivity. Qed.

(** *** Further examples *)

(** [floor] is a builtin; [x] was declared in the open scope. *)
Lemma bound_identifier_witness :
  setitem "floor" "variable" (run fresh [EnterScope]) =
    Raise (NamespaceCollision "Cannot assign to 'floor', it is a builtin")
          (run fresh [EnterScope]) ∧
  setitem "x" "again" (run fresh [EnterScope; Insert "x" "variable x"]) =
    Raise (NamespaceCollision "'x' has already been declared as a variable x")
          (run fresh [EnterScope; Insert "x" "variable x"]).
Proof.
  split.
  - destruct (bound_identifier_is_refused string Sample.obj_str Sample.OPCODES
                "floor" "variable" (run fresh [EnterScope]) "function floor")
      as [H _]; [vm_compute; reflexivity..|].
    rewrite H. vm_compute. reflexivity.
  - destruct (bound_identifier_is_refused string Sample.obj_str Sample.OPCODES
                "x" "again" (run fresh [EnterScope; Insert "x" "variable x"])
                "variable x")
      as [H _]; [vm_compute; reflexivity..|].
    rewrite H. vm_compute. reflexivity.
Defined.

(** Leaving the scope in which [x] was declared. *)
Lemma exit_pops_witness :
  _scopes (run fresh [EnterScope; EnterScope; Insert "x" "variable x"])
    = [list_to_set ["self"]] ++ [list_to_set ["x"]] ∧
  _scopes (run fresh [EnterScope; EnterScope; Insert "x" "variable x";
                      ExitScope]) = [list_to_set ["self"]] ∧
  dict (run fresh [EnterScope; EnterScope; Insert "x" "variable x";
                   ExitScope]) !! "self" = Some "contract self".
Proof.
  assert (_scopes (run fresh [EnterScope; EnterScope; Insert "x" "variable x"])
          = [list_to_set ["self"]] ++ [list_to_set ["x"]]) as Hs
    by (vm_compute; reflexivity).
  split; [exact Hs|].
  destruct (exit_pops_innermost_scope string Sample.obj_str
              (run fresh [EnterScope; EnterScope; Insert "x" "variable x"])
              [list_to_set ["self"]] (list_to_set ["x"]) Hs)
    as (Hpop & Hframe & _).
  split; [exact Hpop|].
  change (run fresh [EnterScope; EnterScope; Insert "x" "variable x";
                     ExitScope])
    with (state_of
            (__exit__ (run fresh [EnterScope; EnterScope;
                                  Insert "x" "variable x"]))).
  rewrite Hframe; [vm_compute; reflexivity|].
  rewrite elem_of_list_to_set, list_elem_of_singleton. discriminate.
Defined.

(** A run of calls that inserts identifiers only. *)
Lemma recorded_names_witness :
  (∀ top k,
     top ∈ _scopes (run fresh [EnterScope; Insert "x" "variable x"; EnterScope;
                               Insert "x" "again"; Insert "y" "variable y";
                               ExitScope]) →
     k ∈ top →
     is_Some (dict (run fresh [EnterScope; Insert "x" "variable x"; EnterScope;
                               Insert "x" "again"; Insert "y" "variable y";
                               ExitScope]) !! k)) ∧
  (∀ k, (occurrences k
           (_scopes (run fresh [EnterScope; Insert "x" "variable x"; EnterScope;
                                Insert "x" "again"; Insert "y" "variable y";
                                ExitScope])) ≤ 1)%nat) ∧
  ∀ e self',
    __exit__ (run fresh [EnterScope; Insert "x" "variable x"; EnterScope;
                         Insert "x" "again"; Insert "y" "variable y";
                         ExitScope]) = Raise e self' →
    ∃ msg, e = CompilerPanic msg.
Proof.
  apply (recorded_names_stay_bound string Sample.obj_str Sample.OPCODES
           Sample.get_types Sample.get_constant_vars
           Sample.get_builtin_functions Sample.get_mutable_vars).
  - repeat constructor.
  - apply new_returns_fresh.
  - repeat constructor.
Defined.

(** [floor] survives scopes, refused insertions and a reset. *)
Lemma bootstrap_protected_witness :
  dict (run fresh [EnterScope; Insert "floor" "variable"; Reset; EnterScope;
                   Insert "1abc" "v"; ExitScope]) !! "floor"
    = Some "function floor" ∧
  ∀ obj,
    setitem "floor" obj
      (run fresh [EnterScope; Insert "floor" "variable"; Reset; EnterScope;
                  Insert "1abc" "v"; ExitScope])
    = Raise (NamespaceCollision "Cannot assign to 'floor', it is a builtin")
            (run fresh [EnterScope; Insert "floor" "variable"; Reset;
                        EnterScope; Insert "1abc" "v"; ExitScope]).
Proof.
  apply (bootstrap_bindings_are_protected string Sample.obj_str Sample.OPCODES
           Sample.get_types Sample.get_constant_vars
           Sample.get_builtin_functions Sample.get_mutable_vars
           fresh "floor" "function floor").
  - apply new_returns_fresh.
  - vm_compute. reflexivity.
  - reflexivity.
Defined.

(** [y] is refused as a second entry for an existing name; [x] stays. *)
Lemma update_stops_witness :
  update string Sample.obj_str Sample.OPCODES
    ([("x", "variable x")] ++ ("floor", "variable") :: [("y", "variable y")])
    (run fresh [EnterScope])
  = Raise (NamespaceCollision "Cannot assign to 'floor', it is a builtin")
          (run fresh [EnterScope; Insert "x" "variable x"]) ∧
  dict (run fresh [EnterScope; Insert "x" "variable x"])
  = dict_update string (dict (run fresh [EnterScope])) [("x", "variable x")].
Proof.
  apply (update_stops_at_first_refusal string Sample.obj_str Sample.OPCODES);
    vm_compute; reflexivity.
Defined.

(** A [with] block whose body declares [x] and then trips over [floor]. *)
Lemma with_scope_witness :
  with_scope string Sample.obj_str Sample.OPCODES Sample.get_mutable_vars
    (update string Sample.obj_str Sample.OPCODES
       [("x", "variable x"); ("floor", "variable")])
    fresh
  = Raise (NamespaceCollision "Cannot assign to 'floor', it is a builtin")
          fresh.
Proof.
  rewrite (with_scope_restores string Sample.obj_str Sample.OPCODES
             Sample.get_mutable_vars
             [("x", "variable x"); ("floor", "variable")]
             fresh (run fresh [EnterScope])).
  - vm_compute. reflexivity.
  - vm_compute. reflexivity.
  - repeat constructor.
  - repeat constructor.
Defined.

(** [self] bound before the first scope makes the first entry fail. *)
Lemma failed_entry_witness :
  with_scope string Sample.obj_str Sample.OPCODES Sample.get_mutable_vars
    (__getitem__ "self") (run fresh [Insert "self" "user variable"])
  = Raise (NamespaceCollision "Cannot assign to 'self', it is a builtin")
          (run fresh [Insert "self" "user variable"; EnterScope]) ∧
  _scopes (run fresh [Insert "self" "user variable"]) = [] ∧
  (∃ top, _scopes (run fresh [Insert "self" "user variable"; EnterScope])
          = [top]) ∧
  user_facing
    (NamespaceCollision "Cannot assign to 'self', it is a builtin") = true.
Proof.
  apply (failed_entry_leaves_scope_open string Sample.obj_str Sample.OPCODES
           Sample.get_mutable_vars).
  vm_compute. reflexivity.
Defined.

(** The first [get_namespace] of a process. *)
Lemma get_namespace_witness :
  ∃ w1,
    get_namespace string Sample.obj_str Sample.OPCODES Sample.get_types
      Sample.get_constant_vars Sample.get_builtin_functions
      {| heap := []; _namespace := None |} = (w1, inr 0) ∧
    heap string w1 !! 0 = Some fresh ∧
    ∀ (A : Type) (m : M string A) w2 r,
      call string 0 m w1 = Some (w2, r) →
      get_namespace string Sample.obj_str Sample.OPCODES Sample.get_types
        Sample.get_constant_vars Sample.get_builtin_functions w2
      = (w2, inr 0) ∧
      heap string w2 !! 0 = Some (state_of (m fresh)).
Proof.
  pose proof (get_namespace_is_a_singleton string Sample.obj_str
                Sample.OPCODES Sample.get_types Sample.get_constant_vars
                Sample.get_builtin_functions
                {| heap := []; _namespace := None |} eq_refl) as H.
  rewrite new_returns_fresh in H. exact H.
Defined.

Lemma namespaces_identity_witness :
  ∃ w1 w2 ns ns',
    Namespace_call string Sample.obj_str Sample.OPCODES Sample.get_types
      Sample.get_constant_vars Sample.get_builtin_functions
      {| heap := []; _namespace := None |} = (w1, inr ns) ∧
    Namespace_call string Sample.obj_str Sample.OPCODES Sample.get_types
      Sample.get_constant_vars Sample.get_builtin_functions w1
      = (w2, inr ns') ∧
    heap string w2 !! ns = Some fresh ∧
    heap string w2 !! ns' = Some fresh ∧
    __eq__ ns ns' = false ∧ __eq__ ns ns = true ∧ __eq__ ns' ns' = true.
Proof.
  apply (namespaces_equal_only_to_themselves string Sample.obj_str
           Sample.OPCODES Sample.get_types Sample.get_constant_vars
           Sample.get_builtin_functions).
  apply new_returns_fresh.
Defined.

(** [Balance], [BALANCE] and [balance] are reserved alike. *)
Lemma reserved_case_witness :
  is_reserved Sample.OPCODES (Ident.lower "Balance")
    = is_reserved Sample.OPCODES "Balance" ∧
  is_reserved Sample.OPCODES (Ident.upper "Balance")
    = is_reserved Sample.OPCODES "Balance".
Proof.
  apply (reserved_test_ignores_case Sample.OPCODES "Balance"). reflexivity.
Defined.

Lemma keyword_refused_witness :
  setitem "nonreentrant" "variable" (run fresh [EnterScope; EnterScope]) =
    Raise (StructureException "'nonreentrant' is a reserved keyword")
          (run fresh [EnterScope; EnterScope]).
Proof.
  apply (every_keyword_is_refused_in_scope string Sample.obj_str
           Sample.OPCODES "nonreentrant" "variable"
           (run fresh [EnterScope; EnterScope])).
  - unfold RESERVED_KEYWORDS.
    repeat first [apply list_elem_of_here | apply list_elem_of_further].
  - vm_compute. discriminate.
  - vm_compute. reflexivity.
Defined.

(** [owner], declared before any scope, outlives the scopes opened later. *)
Lemma depth0_binding_witness :
  setitem "owner" "address" fresh =
    Return tt {| dict := <["owner" := "address"]> (dict fresh); _scopes := [] |} ∧
  dict (run (state_of (setitem "owner" "address" fresh))
            [EnterScope; Insert "owner" "again"; EnterScope; ExitScope;
             ExitScope]) !! "owner" = Some "address" ∧
  ∀ obj,
    setitem "owner" obj
      (run (state_of (setitem "owner" "address" fresh))
           [EnterScope; Insert "owner" "again"; EnterScope; ExitScope;
            ExitScope])
    = Raise (NamespaceCollision "Cannot assign to 'owner', it is a builtin")
            (run (state_of (setitem "owner" "address" fresh))
                 [EnterScope; Insert "owner" "again"; EnterScope; ExitScope;
                  ExitScope]).
Proof.
  apply (depth0_binding_is_permanent string Sample.obj_str Sample.OPCODES
           Sample.get_types Sample.get_constant_vars
           Sample.get_builtin_functions Sample.get_mutable_vars
           "owner" "address" fresh).
  - reflexivity.
  - vm_compute. reflexivity.
  - vm_compute. reflexivity.
  - repeat constructor.
Defined.

(** The sample namespace is constructed, although [send] and
    [selfdestruct] are reserved words; with [floor] registered twice it is
    not. *)
Example construction_examples :
  (∃ s, new = Return tt s) ∧
  Namespace_new string Sample.obj_str Sample.OPCODES
    (("floor", "type floor") :: Sample.get_types)
    Sample.get_constant_vars Sample.get_builtin_functions
  = Raise (NamespaceCollision "Cannot assign to 'floor', it is a builtin")
          {| dict := dict_update string ∅
                       (("floor", "type floor") :: Sample.get_types
                        ++ Sample.get_constant_vars);
             _scopes := [] |}.
Proof. split; [eexists|]; vm_compute; reflexivity. Qed.

End Examples.
